(** * mcp-longbridge: validation, dispatch and result envelopes

    A shallow embedding of [utils.ts], [constants.ts], [api.ts] and
    [index.ts].  JavaScript values are kept dynamically typed, as the
    program sees them, and the zod combinators the schemas are written with
    are embedded as functions on those values.  What the program calls but
    does not define is a parameter: the numeric values of the SDK's
    enumerations, the text of the error of the SDK's [NaiveDate]
    constructor, [JSON.stringify], and a [World] that answers for the
    environment and the backend.

    [constants.ts] names fourteen methods of [LongBridge] in [TOOLS_CONFIG]
    and [index.ts] dispatches through it; [api.ts] is embedded at the
    revision that has the fourteen, with [handleSuccessResult].  The earlier
    revision has six of them and builds the same blocks in place. *)

From Stdlib Require Import String Ascii List ZArith QArith Bool Lia DecimalString.
Import ListNotations.

Set Warnings "-register-all".
Local Open Scope list_scope.
Local Open Scope string_scope.

(** ** JavaScript values *)

(** [NaiveDate], [Time] and [NaiveDatetime] of the longport SDK carry the
    numbers given to their constructors.  The constructor of [NaiveDate]
    checks them against the calendar, see [new_NaiveDate] below. *)
Record NaiveDate := mkNaiveDate { year : Z; month : Z; day : Z }.
Record Time := mkTime { hour : Z; minute : Z; second : Z }.
Record NaiveDatetime := mkNaiveDatetime { date : NaiveDate; time : Time }.

(** A number is the exact rational value of a finite double. *)
Inductive Value : Type :=
  | VUndefined
  | VNull
  | VBool (b : bool)
  | VNum (q : Q)
  | VStr (s : string)
  | VArr (xs : list Value)
  | VObj (fields : list (string * Value))
  | VNaiveDate (d : NaiveDate)
  | VNaiveDatetime (dt : NaiveDatetime)
  | VDate (iso : string).

(** ** Faults *)

Inductive PathSeg := Key (k : string) | Index (i : nat).

Inductive IssueCode :=
  | invalid_type | invalid_literal | invalid_union | invalid_enum_value
  | invalid_string | too_small | too_big | custom.

(** A zod issue; [unionErrors] is empty except for [invalid_union]. *)
Inductive ZodIssue : Type :=
  mkIssue (code : IssueCode) (path : list PathSeg) (message : string)
          (unionErrors : list (list ZodIssue)).

Definition issue_code (i : ZodIssue) := let 'mkIssue c _ _ _ := i in c.
Definition issue_path (i : ZodIssue) := let 'mkIssue _ p _ _ := i in p.
Definition issue_message (i : ZodIssue) := let 'mkIssue _ _ m _ := i in m.
Definition issue_unionErrors (i : ZodIssue) := let 'mkIssue _ _ _ u := i in u.

(** What a [throw] can carry: a [ZodError], an [Error] with its message,
    or any other value. *)
Inductive Fault :=
  | ZodError (issues : list ZodIssue)
  | JsError (message : string)
  | Thrown (v : Value).

Inductive Outcome (A : Type) :=
  | Return (a : A)
  | Throw (e : Fault).
Arguments Return {A} a.
Arguments Throw {A} e.

(** ** utils.ts *)

Definition dq : string := String (ascii_of_nat 34) EmptyString.

Definition is_digit (c : ascii) : bool :=
  (48 <=? nat_of_ascii c)%nat && (nat_of_ascii c <=? 57)%nat.

Definition digit_value (c : ascii) : Z := Z.of_nat (nat_of_ascii c - 48).

Definition all_digits (s : string) : bool :=
  forallb is_digit (list_ascii_of_string s).

(** [/^\d{8}$/.test]: no flags, so [\d] is an ASCII digit and [$] is the
    end of the input. *)
Definition re_date (s : string) : bool :=
  (String.length s =? 8)%nat && all_digits s.

(** [/^\d{4}(\d{2})?$/.test] *)
Definition re_time (s : string) : bool :=
  ((String.length s =? 4)%nat || (String.length s =? 6)%nat) && all_digits s.

(** [String.prototype.substring(a, b)]: the arguments are swapped when
    [a > b] and clamped to the length. *)
Definition js_substring (s : string) (a b : nat) : string :=
  substring (Nat.min a b) (Nat.max a b - Nat.min a b) s.

Definition is_space (c : ascii) : bool :=
  let n := nat_of_ascii c in
  ((9 <=? n)%nat && (n <=? 13)%nat) || (n =? 32)%nat.

Fixpoint skip_spaces (s : string) : string :=
  match s with
  | String c r => if is_space c then skip_spaces r else s
  | EmptyString => s
  end.

Fixpoint digits_prefix (acc : Z) (s : string) : Z :=
  match s with
  | String c r =>
      if is_digit c then digits_prefix (10 * acc + digit_value c) r else acc
  | EmptyString => acc
  end.

(** [Number.parseInt(s, 10)]; [None] is [NaN]. *)
Definition parseInt10 (s : string) : option Z :=
  let t := skip_spaces s in
  let '(neg, u) :=
    match t with
    | String "-" r => (true, r)
    | String "+" r => (false, r)
    | _ => (false, t)
    end in
  match u with
  | String c _ =>
      if is_digit c
      then Some (if neg : bool then - digits_prefix 0 u else digits_prefix 0 u)%Z
      else None
  | EmptyString => None
  end.

(** [Number.isNaN(a) || Number.isNaN(b) || Number.isNaN(c) || bad a b c] *)
Definition nan_or (a b c : option Z) (bad : Z -> Z -> Z -> bool) : bool :=
  match a, b, c with
  | Some x, Some y, Some z => bad x y z
  | _, _, _ => true
  end.

Definition dateFormatError : Fault :=
  JsError ("日期格式无效，应为" ++ dq ++ "YYYYMMDD" ++ dq).
Definition dateValueError : Fault := JsError "无效的日期值".
Definition timeFormatError : Fault :=
  JsError ("时间格式无效，应为" ++ dq ++ "HHMM" ++ dq ++ "或" ++ dq ++ "HHMMSS" ++ dq).
Definition timeValueError : Fault := JsError "无效的时间值".

(** The SDK is not part of the repository.  Its [NaiveDate] constructor
    throws an [Error] when the numbers are not a date of the calendar; the
    text of that error is the SDK's and is kept as a parameter. *)
Class Longport := { NaiveDate_message : Z -> Z -> Z -> string }.

Definition is_leap_year (y : Z) : bool :=
  ((y mod 4 =? 0) && (negb (y mod 100 =? 0) || (y mod 400 =? 0)))%Z.

Definition days_in_month (y m : Z) : Z :=
  (if m =? 2 then (if is_leap_year y then 29 else 28)
   else if (m =? 4) || (m =? 6) || (m =? 9) || (m =? 11) then 30
   else 31)%Z.

(** [new NaiveDate(year, month, day)]: a date of the proleptic Gregorian
    calendar, or the SDK's error. *)
Definition new_NaiveDate `{Longport} (y m d : Z) : Outcome NaiveDate :=
  if ((1 <=? m) && (m <=? 12) && (1 <=? d) && (d <=? days_in_month y m))%Z
  then Return (mkNaiveDate y m d)
  else Throw (JsError (NaiveDate_message y m d)).

Definition parseNaiveDate `{Longport} (dateStr : string) : Outcome NaiveDate :=
  if negb (re_date dateStr) then Throw dateFormatError
  else
    let year := parseInt10 (js_substring dateStr 0 4) in
    let month := parseInt10 (js_substring dateStr 4 6) in
    let day := parseInt10 (js_substring dateStr 6 8) in
    if nan_or year month day
         (fun _ m d => (m <? 1) || (m >? 12) || (d <? 1) || (d >? 31))%Z
    then Throw dateValueError
    else
      match year, month, day with
      | Some y, Some m, Some d => new_NaiveDate y m d
      | _, _, _ => Throw dateValueError
      end.

Definition parseTime (timeStr : string) : Outcome Time :=
  if negb (re_time timeStr) then Throw timeFormatError
  else
    let hour := parseInt10 (js_substring timeStr 0 2) in
    let minute := parseInt10 (js_substring timeStr 2 4) in
    let second :=
      if (4 <? String.length timeStr)%nat
      then parseInt10 (js_substring timeStr 4 6) else Some 0%Z in
    if nan_or hour minute second
         (fun h m s => (h <? 0) || (h >? 23) || (m <? 0) || (m >? 59)
                       || (s <? 0) || (s >? 59))%Z
    then Throw timeValueError
    else
      match hour, minute, second with
      | Some h, Some m, Some s => Return (mkTime h m s)
      | _, _, _ => Throw timeValueError
      end.

(** [timeStr ? parseTime(timeStr) : new Time(0, 0, 0)]: an absent or empty
    [timeStr] is falsy. *)
Definition parseNaiveDatetime `{Longport} (dateStr : string) (timeStr : option string)
  : Outcome NaiveDatetime :=
  match parseNaiveDate dateStr with
  | Throw e => Throw e
  | Return date =>
      let time :=
        match timeStr with
        | Some (String c r) => parseTime (String c r)
        | _ => Return (mkTime 0 0 0)
        end in
      match time with
      | Throw e => Throw e
      | Return t => Return (mkNaiveDatetime date t)
      end
  end.

(** ** Property access, truthiness and strict equality *)

Fixpoint lookup (k : string) (fields : list (string * Value)) : option Value :=
  match fields with
  | [] => None
  | (k', v) :: rest => if k =? k' then Some v else lookup k rest
  end.

(** [k in data] *)
Definition has_key (k : string) (v : Value) : bool :=
  match v with
  | VObj fields => match lookup k fields with Some _ => true | None => false end
  | _ => false
  end.

(** [v.k], on the objects built here; a missing property reads [undefined]. *)
Definition get (k : string) (v : Value) : Value :=
  match v with
  | VObj fields => match lookup k fields with Some x => x | None => VUndefined end
  | _ => VUndefined
  end.

(** [v?.k] *)
Definition opt_get (k : string) (v : Value) : Value :=
  match v with
  | VUndefined | VNull => VUndefined
  | _ => get k v
  end.

(** [a ?? b] *)
Definition nullish_or (a b : Value) : Value :=
  match a with
  | VUndefined | VNull => b
  | _ => a
  end.

Definition truthy (v : Value) : bool :=
  match v with
  | VUndefined | VNull => false
  | VBool b => b
  | VNum q => negb (Qeq_bool q 0)
  | VStr s => negb (s =? "")
  | _ => true
  end.

(** [a === b] against a primitive [b]. *)
Definition strict_eq (a b : Value) : bool :=
  match a, b with
  | VUndefined, VUndefined | VNull, VNull => true
  | VBool x, VBool y => Bool.eqb x y
  | VNum x, VNum y => Qeq_bool x y
  | VStr x, VStr y => x =? y
  | _, _ => false
  end.

Definition num (z : Z) : Value := VNum (inject_Z z).

Definition is_num (z : Z) (v : Value) : bool := strict_eq v (num z).

(** ** zod *)

(** The combinators of zod 3 that the schemas use, with the synchronous
    parse of each: a schema maps the path and the data to a status, a value
    and the issues it reported, or throws what a transform threw. *)

Inductive ParsedType :=
  | pt_undefined | pt_null | pt_boolean | pt_number | pt_string
  | pt_array | pt_object | pt_date.

Definition getParsedType (v : Value) : ParsedType :=
  match v with
  | VUndefined => pt_undefined
  | VNull => pt_null
  | VBool _ => pt_boolean
  | VNum _ => pt_number
  | VStr _ => pt_string
  | VArr _ => pt_array
  | VObj _ | VNaiveDate _ | VNaiveDatetime _ => pt_object
  | VDate _ => pt_date
  end.

Definition ParsedType_name (t : ParsedType) : string :=
  match t with
  | pt_undefined => "undefined" | pt_null => "null" | pt_boolean => "boolean"
  | pt_number => "number" | pt_string => "string" | pt_array => "array"
  | pt_object => "object" | pt_date => "date"
  end.

Inductive Status := valid | dirty | aborted.

Record ParseReturn := mkParse
  { status : Status; value : Value; issues : list ZodIssue }.

Definition Path := list PathSeg.
Definition Schema := Path -> Value -> Outcome ParseReturn.

Definition OK (v : Value) : Outcome ParseReturn := Return (mkParse valid v []).
Definition INVALID (iss : list ZodIssue) : Outcome ParseReturn :=
  Return (mkParse aborted VUndefined iss).

Definition merge_status (a b : Status) : Status :=
  match a, b with
  | aborted, _ | _, aborted => aborted
  | dirty, _ | _, dirty => dirty
  | valid, valid => valid
  end.

Definition string_of_Z (z : Z) : string := NilZero.string_of_int (Z.to_int z).
Definition string_of_nat (n : nat) : string := string_of_Z (Z.of_nat n).

(** The default error map. *)
Definition invalid_type_issue (path : Path) (expected : string) (v : Value)
  : ZodIssue :=
  mkIssue invalid_type path
    (match v with
     | VUndefined => "Required"
     | _ => "Expected " ++ expected ++ ", received "
            ++ ParsedType_name (getParsedType v)
     end) [].

(** [JSON.stringify] of a literal; those of the schemas are integers and
    strings. *)
Definition literal_json (v : Value) : string :=
  match v with
  | VStr s => dq ++ s ++ dq
  | VNum q => string_of_Z (Qnum q)
  | VBool true => "true"
  | VBool false => "false"
  | _ => "null"
  end.

Definition or_default (custom_message : option string) (default : string) :=
  match custom_message with Some m => m | None => default end.

(** [z.string()] with its checks in order; a failed check leaves the
    value dirty. *)
Record StringCheck := mkStringCheck
  { check_test : string -> bool; check_default : string;
    check_message : option string }.

Definition regex (test : string -> bool) (message : option string) :=
  mkStringCheck test "Invalid" message.

Definition run_string_checks (path : Path) (s : string)
  (checks : list StringCheck) : list ZodIssue :=
  flat_map
    (fun c =>
       if check_test c s then []
       else [mkIssue invalid_string path
               (or_default (check_message c) (check_default c)) []])
    checks.

Definition z_string (checks : list StringCheck) : Schema :=
  fun path v =>
    match v with
    | VStr s =>
        let iss := run_string_checks path s checks in
        Return (mkParse (match iss with [] => valid | _ => dirty end) v iss)
    | _ => INVALID [invalid_type_issue path "string" v]
    end.

(** [z.number()] with [.int()], [.min(n)] and [.max(n)]. *)
Inductive NumberCheck := int | min (n : Z) | max (n : Z).

Definition is_integer (q : Q) : bool :=
  (Qnum q mod Z.pos (Qden q) =? 0)%Z.

Definition run_number_check (path : Path) (q : Q) (c : NumberCheck)
  : list ZodIssue :=
  match c with
  | int =>
      if is_integer q then []
      else [mkIssue invalid_type path "Expected integer, received float" []]
  | min n =>
      if Qle_bool (inject_Z n) q then []
      else [mkIssue too_small path
              ("Number must be greater than or equal to " ++ string_of_Z n) []]
  | max n =>
      if Qle_bool q (inject_Z n) then []
      else [mkIssue too_big path
              ("Number must be less than or equal to " ++ string_of_Z n) []]
  end.

Definition z_number (checks : list NumberCheck) : Schema :=
  fun path v =>
    match v with
    | VNum q =>
        let iss := flat_map (run_number_check path q) checks in
        Return (mkParse (match iss with [] => valid | _ => dirty end) v iss)
    | _ => INVALID [invalid_type_issue path "number" v]
    end.

(** [z.literal(lit)] *)
Definition z_literal (lit : Value) : Schema :=
  fun path v =>
    if strict_eq v lit then OK v
    else INVALID [mkIssue invalid_literal path
                    ("Invalid literal value, expected " ++ literal_json lit) []].

(** [z.union(options)]: the first valid option wins; otherwise the first
    dirty one; otherwise one [invalid_union] issue carrying the issues of
    every option. *)
Fixpoint union_loop (options : list Schema) (path : Path) (v : Value)
  (first_dirty : option ParseReturn) (errors : list (list ZodIssue))
  : Outcome ParseReturn :=
  match options with
  | [] =>
      match first_dirty with
      | Some r => Return r
      | None => INVALID [mkIssue invalid_union path "Invalid input" errors]
      end
  | option :: rest =>
      match option path v with
      | Throw e => Throw e
      | Return r =>
          let errors' :=
            match issues r with [] => errors | iss => (errors ++ [iss])%list end in
          match status r, first_dirty with
          | valid, _ => Return (mkParse valid (value r) [])
          | dirty, None => union_loop rest path v (Some r) errors'
          | _, _ => union_loop rest path v first_dirty errors'
          end
      end
  end.

Definition z_union (options : list Schema) : Schema :=
  fun path v => union_loop options path v None [].

(** [schema.optional()] *)
Definition optional (schema : Schema) : Schema :=
  fun path v =>
    match v with
    | VUndefined => OK VUndefined
    | _ => schema path v
    end.

(** [schema.default(d)] *)
Definition default (schema : Schema) (d : Value) : Schema :=
  fun path v =>
    match v with
    | VUndefined => schema path d
    | _ => schema path v
    end.

(** [schema.transform(f)]: [f] runs on a valid value only, and what it
    throws leaves the parse as it is. *)
Definition transform (schema : Schema) (f : Value -> Outcome Value) : Schema :=
  fun path v =>
    match schema path v with
    | Throw e => Throw e
    | Return r =>
        match status r with
        | valid =>
            match f (value r) with
            | Throw e => Throw e
            | Return v' => Return (mkParse valid v' (issues r))
            end
        | _ => Return r
        end
    end.

(** [schema.refine(check, { path, message })]: the check runs unless the
    parse aborted. *)
Definition refine (schema : Schema) (check : Value -> bool)
  (at_path : Path) (message : option string) : Schema :=
  fun path v =>
    match schema path v with
    | Throw e => Throw e
    | Return r =>
        match status r with
        | aborted => Return r
        | _ =>
            if check (value r) then Return r
            else Return (mkParse dirty (value r)
                           (issues r ++ [mkIssue custom (path ++ at_path)%list
                                           (or_default message "Invalid input") []])%list)
        end
    end.

Definition is_undefined (v : Value) : bool :=
  match v with VUndefined => true | _ => false end.

(** [z.object(shape)]: unknown keys are stripped; every key of the shape is
    parsed, in order, also after another key aborted; a key is set in the
    result when its value is defined or the key is in the data. *)
Fixpoint object_pairs (shape : list (string * Schema)) (path : Path)
  (data : Value) (st : Status) (fields : list (string * Value))
  (iss : list ZodIssue) : Outcome ParseReturn :=
  match shape with
  | [] =>
      Return (mkParse st
                (match st with aborted => VUndefined | _ => VObj fields end) iss)
  | (k, schema) :: rest =>
      match schema (path ++ [Key k])%list (get k data) with
      | Throw e => Throw e
      | Return r =>
          object_pairs rest path data (merge_status st (status r))
            (if negb (is_undefined (value r)) || has_key k data
             then (fields ++ [(k, value r)])%list else fields)
            (iss ++ issues r)%list
      end
  end.

Definition z_object (shape : list (string * Schema)) : Schema :=
  fun path v =>
    match v with
    | VObj _ => object_pairs shape path v valid [] []
    | _ => INVALID [invalid_type_issue path "object" v]
    end.

(** [z.array(element)] and [.max(n, message)] *)
Fixpoint array_items (element : Schema) (path : Path) (items : list Value)
  (i : nat) (st : Status) (out : list Value) (iss : list ZodIssue)
  : Outcome ParseReturn :=
  match items with
  | [] =>
      Return (mkParse st
                (match st with aborted => VUndefined | _ => VArr out end) iss)
  | item :: rest =>
      match element (path ++ [Index i])%list item with
      | Throw e => Throw e
      | Return r =>
          array_items element path rest (S i) (merge_status st (status r))
            (out ++ [value r])%list (iss ++ issues r)%list
      end
  end.

Definition z_array (element : Schema) (maxLength : option (nat * option string))
  : Schema :=
  fun path v =>
    match v with
    | VArr items =>
        let too_long :=
          match maxLength with
          | Some (n, message) =>
              if (n <? length items)%nat
              then [mkIssue too_big path
                      (or_default message
                         ("Array must contain at most " ++ string_of_nat n
                          ++ " element(s)")) []]
              else []
          | None => []
          end in
        array_items element path items 0
          (match too_long with [] => valid | _ => dirty end) [] too_long
    | _ => INVALID [invalid_type_issue path "array" v]
    end.

(** [z.nativeEnum(E)] for a string enum with the values [values]. *)
Definition joinValues (values : list string) : string :=
  String.concat " | " (map (fun v => "'" ++ v ++ "'") values).

Definition z_nativeEnum (values : list string) : Schema :=
  fun path v =>
    let invalid_enum received :=
      INVALID [mkIssue invalid_enum_value path
                 ("Invalid enum value. Expected " ++ joinValues values
                  ++ ", received '" ++ received ++ "'") []] in
    match v with
    | VStr s => if existsb (String.eqb s) values then OK v else invalid_enum s
    | VNum q => invalid_enum (literal_json v)
    | _ => INVALID [invalid_type_issue path (joinValues values) v]
    end.

Inductive SafeParseReturn :=
  | SafeSuccess (data : Value)
  | SafeError (error : Fault).

Definition safeParse (schema : Schema) (data : Value) : Outcome SafeParseReturn :=
  match schema [] data with
  | Throw e => Throw e
  | Return r =>
      match status r, issues r with
      | valid, _ => Return (SafeSuccess (value r))
      | _, [] => Throw (JsError "Validation failed but no issues detected.")
      | _, iss => Return (SafeError (ZodError iss))
      end
  end.

Definition parse (schema : Schema) (data : Value) : Outcome Value :=
  match safeParse schema data with
  | Throw e => Throw e
  | Return (SafeSuccess v) => Return v
  | Return (SafeError e) => Throw e
  end.

(** ** zod-validation-error *)

(** [fromError(error).toString()] with the default options. *)
Fixpoint joinPath_from (acc : string) (p : Path) : string :=
  match p with
  | [] => acc
  | Index i :: rest => joinPath_from (acc ++ "[" ++ string_of_nat i ++ "]") rest
  | Key k :: rest =>
      joinPath_from (if acc =? "" then k else acc ++ "." ++ k) rest
  end.

Definition joinPath (p : Path) : string :=
  match p with
  | [Key k] => k
  | _ => joinPath_from "" p
  end.

Definition push_new (acc : list string) (m : string) : list string :=
  if existsb (String.eqb m) acc then acc else (acc ++ [m])%list.

Fixpoint getMessageFromZodIssue (i : ZodIssue) : string :=
  match i with
  | mkIssue invalid_union _ _ unionErrors =>
      String.concat ", or "
        (fold_left push_new
           (map (fun iss => String.concat "; " (map getMessageFromZodIssue iss))
              unionErrors) [])
  | mkIssue _ [] message _ => message
  | mkIssue _ [Index n] message _ => message ++ " at index " ++ string_of_nat n
  | mkIssue _ path message _ => message ++ " at " ++ dq ++ joinPath path ++ dq
  end.

Definition fromError_toString (iss : list ZodIssue) : string :=
  "Validation error: "
  ++ String.concat "; " (map getMessageFromZodIssue (firstn 99 iss)).

(** ** constants.ts *)

Module Tool.
Inductive t :=
  | QuoteStaticInfo | QuoteRealtimeInfo | QuoteDepth | QuoteTrades
  | QuoteIntraday | QuoteHistoryCandlesticks | QuoteCapitalFlow
  | QuoteCapitalDistribution | QuoteCalcIndex | QuoteWatchList
  | TradeHistoryExecutions | TradeTodayExecutions | TradeAccountBalance
  | TradeStockPositions.

Definition value (tool : t) : string :=
  match tool with
  | QuoteStaticInfo => "quote-static-info"
  | QuoteRealtimeInfo => "quote-realtime-info"
  | QuoteDepth => "quote-depth"
  | QuoteTrades => "quote-trades"
  | QuoteIntraday => "quote-intraday"
  | QuoteHistoryCandlesticks => "quote-history-candlesticks"
  | QuoteCapitalFlow => "quote-capital-flow"
  | QuoteCapitalDistribution => "quote-capital-distribution"
  | QuoteCalcIndex => "quote-calc-index"
  | QuoteWatchList => "quote-watch-list"
  | TradeHistoryExecutions => "trade-history-executions"
  | TradeTodayExecutions => "trade-today-executions"
  | TradeAccountBalance => "trade-account-balance"
  | TradeStockPositions => "trade-stock-positions"
  end.

Definition members : list t :=
  [QuoteStaticInfo; QuoteRealtimeInfo; QuoteDepth; QuoteTrades; QuoteIntraday;
   QuoteHistoryCandlesticks; QuoteCapitalFlow; QuoteCapitalDistribution;
   QuoteCalcIndex; QuoteWatchList; TradeHistoryExecutions;
   TradeTodayExecutions; TradeAccountBalance; TradeStockPositions].
End Tool.

(** The enumerations of the longport SDK that the schemas list. *)
Module Period.
Inductive t :=
  | Min_1 | Min_2 | Min_3 | Min_5 | Min_10 | Min_15 | Min_20 | Min_30
  | Min_45 | Min_60 | Min_120 | Min_180 | Min_240
  | Day | Week | Month | Quarter | Year.

Definition listed : list t :=
  [Min_1; Min_2; Min_3; Min_5; Min_10; Min_15; Min_20; Min_30; Min_45;
   Min_60; Min_120; Min_180; Min_240; Day; Week; Month; Quarter; Year].
End Period.

Module AdjustType.
Inductive t := NoAdjust | ForwardAdjust.

Definition listed : list t := [NoAdjust; ForwardAdjust].
End AdjustType.

Module CalcIndex.
Inductive t :=
  | LastDone | ChangeValue | ChangeRate | Volume | Turnover | YtdChangeRate
  | TurnoverRate | TotalMarketValue | CapitalFlow | Amplitude | VolumeRatio
  | PeTtmRatio | PbRatio | DividendRatioTtm | FiveDayChangeRate
  | TenDayChangeRate | HalfYearChangeRate | FiveMinutesChangeRate
  | ExpiryDate | StrikePrice | UpperStrikePrice | LowerStrikePrice
  | OutstandingQty | OutstandingRatio | Premium | ItmOtm | ImpliedVolatility
  | WarrantDelta | CallPrice | ToCallPrice | EffectiveLeverage
  | LeverageRatio | ConversionRatio | BalancePoint | OpenInterest
  | Delta | Gamma | Theta | Vega | Rho.

Definition listed : list t :=
  [LastDone; ChangeValue; ChangeRate; Volume; Turnover; YtdChangeRate;
   TurnoverRate; TotalMarketValue; CapitalFlow; Amplitude; VolumeRatio;
   PeTtmRatio; PbRatio; DividendRatioTtm; FiveDayChangeRate;
   TenDayChangeRate; HalfYearChangeRate; FiveMinutesChangeRate; ExpiryDate;
   StrikePrice; UpperStrikePrice; LowerStrikePrice; OutstandingQty;
   OutstandingRatio; Premium; ItmOtm; ImpliedVolatility; WarrantDelta;
   CallPrice; ToCallPrice; EffectiveLeverage; LeverageRatio; ConversionRatio;
   BalancePoint; OpenInterest; Delta; Gamma; Theta; Vega; Rho].
End CalcIndex.

(** [/^[A-Z0-9]+\.[A-Z]+$/.test]: the dot is not in the first class, so the
    first run is the longest prefix of capitals and digits. *)
Definition is_upper (c : ascii) : bool :=
  (65 <=? nat_of_ascii c)%nat && (nat_of_ascii c <=? 90)%nat.

Fixpoint span (p : ascii -> bool) (s : string) : string * string :=
  match s with
  | String c r =>
      if p c then let '(a, b) := span p r in (String c a, b)
      else (EmptyString, s)
  | EmptyString => (EmptyString, EmptyString)
  end.

Definition re_symbol (s : string) : bool :=
  let '(ticker, rest) := span (fun c => is_upper c || is_digit c) s in
  negb (ticker =? "")
  && match rest with
     | String "." region =>
         negb (region =? "") && forallb is_upper (list_ascii_of_string region)
     | _ => false
     end.

Definition bind_outcome {A B : Type} (o : Outcome A) (k : A -> Outcome B)
  : Outcome B :=
  match o with
  | Return a => k a
  | Throw e => Throw e
  end.

Notation "'let!' x ':=' o 'in' k" := (bind_outcome o (fun x => k))
  (at level 10, x name, o at level 100, k at level 200).

(** A call of a function of [utils.ts] on a property that its schema has
    typed as a string. *)
Definition on_string {A : Type} (v : Value) (f : string -> Outcome A) : Outcome A :=
  match v with
  | VStr s => f s
  | _ => Throw (JsError "TypeError")
  end.

Definition optional_string (v : Value) : option string :=
  match v with
  | VStr s => Some s
  | _ => None
  end.

(** Lists of a known length, element by element. *)
Ltac list_of_length :=
  repeat match goal with
         | H : length ?l = S _ |- _ =>
             destruct l; [discriminate H|]; cbn [length] in H;
             apply Nat.succ_inj in H
         | H : length ?l = 0%nat |- _ =>
             destruct l; [clear H | discriminate H]
         end.

Section Longbridge.

Set Default Proof Using "Type".

(** The longport SDK the program is linked with. *)
Context {sdk : Longport}.

(** The numeric values of the members of the SDK's enumerations. *)
Variable Period_value : Period.t -> Z.
Variable AdjustType_value : AdjustType.t -> Z.
Variable CalcIndex_value : CalcIndex.t -> Z.

(** The regular expression behind [z.string().datetime()]. *)
Variable datetimeRegex : string -> bool.

Definition datetime : StringCheck :=
  mkStringCheck datetimeRegex "Invalid datetime" None.

Definition ToolNameSchema : Schema := z_nativeEnum (map Tool.value Tool.members).

Definition SymbolSchema : Schema :=
  z_string
    [regex re_symbol
       (Some ("Symbol must be in the format of " ++ dq ++ "ticker.region" ++ dq))].

Definition max_500 : option (nat * option string) :=
  Some (500%nat, Some "The maximum number of symbols in each request is 500").

Definition QuoteStaticInfoSchema : Schema :=
  z_object [("symbol", z_array SymbolSchema max_500)].

Definition QuoteRealtimeInfoSchema : Schema :=
  z_object [("symbol", z_array SymbolSchema max_500)].

Definition QuoteDepthSchema : Schema := z_object [("symbol", SymbolSchema)].

Definition QuoteTradesSchema : Schema :=
  z_object [("symbol", SymbolSchema);
            ("count", z_number [int; min 1; max 1000])].

Definition QuoteIntradaySchema : Schema := z_object [("symbol", SymbolSchema)].

Definition date_request_transform (value : Value) : Outcome Value :=
  let! start := on_string (get "start_date" value) parseNaiveDate in
  let! end_ := on_string (get "end_date" value) parseNaiveDate in
  Return (VObj [("start", VNaiveDate start); ("end", VNaiveDate end_)]).

Definition offset_request_transform (value : Value) : Outcome Value :=
  let! datetime :=
    (if truthy (opt_get "date" value)
     then
       let! dt := on_string (get "date" value)
                    (fun dateStr =>
                       parseNaiveDatetime dateStr
                         (optional_string (get "minute" value))) in
       Return (VNaiveDatetime dt)
     else Return VUndefined) in
  Return (VObj [("forward", VBool (strict_eq (opt_get "direction" value) (num 1)));
                ("datetime", datetime);
                ("count", opt_get "count" value)]).

Definition query_type_refinement (data : Value) : bool :=
  if is_num 1 (get "query_type" data) && negb (truthy (get "offset_request" data))
  then false
  else if is_num 2 (get "query_type" data)
          && negb (truthy (get "date_request" data))
  then false
  else true.

Definition date_request_object : Schema :=
  z_object [("start_date", z_string []); ("end_date", z_string [])].

Definition offset_request_object : Schema :=
  z_object
    [("direction", z_union [z_literal (num 0); z_literal (num 1)]);
     ("date", optional (z_string []));
     ("minute", optional (z_string []));
     ("count", default (optional (z_number [int; min 1; max 1000])) (num 10))].

Definition QuoteHistoryCandlesticksShape : list (string * Schema) :=
  [("symbol", SymbolSchema);
   ("period",
    z_union (map (fun p => z_literal (num (Period_value p))) Period.listed));
   ("adjust_type",
    z_union (map (fun a => z_literal (num (AdjustType_value a)))
               AdjustType.listed));
   ("query_type", z_union [z_literal (num 1); z_literal (num 2)]);
   ("date_request",
    optional (transform date_request_object date_request_transform));
   ("offset_request",
    transform (optional offset_request_object) offset_request_transform)].

Definition QuoteHistoryCandlesticksSchema : Schema :=
  refine (z_object QuoteHistoryCandlesticksShape)
    query_type_refinement [Key "query_type"] None.

Definition QuoteCapitalFlowSchema : Schema := z_object [("symbol", SymbolSchema)].

Definition QuoteCapitalDistributionSchema : Schema :=
  z_object [("symbol", SymbolSchema)].

Definition QuoteCalcIndexSchema : Schema :=
  z_object
    [("symbols", z_array SymbolSchema max_500);
     ("calc_index",
      z_array
        (z_union (map (fun c => z_literal (num (CalcIndex_value c)))
                    CalcIndex.listed))
        None)].

Definition QuoteWatchListSchema : Schema := z_object [].

(** [(value) => (value ? new Date(value) : undefined)] *)
Definition to_Date (value : Value) : Outcome Value :=
  match value with
  | VStr s => Return (if truthy value then VDate s else VUndefined)
  | _ => Return VUndefined
  end.

Definition TradeHistoryExecutionsSchema : Schema :=
  z_object
    [("symbol", optional SymbolSchema);
     ("startAt", transform (optional (z_string [datetime])) to_Date);
     ("endAt", transform (optional (z_string [datetime])) to_Date)].

Definition TradeTodayExecutionsSchema : Schema :=
  z_object [("symbol", optional SymbolSchema);
            ("orderId", optional (z_string []))].

Definition TradeAccountBalanceSchema : Schema :=
  z_object
    [("currency",
      optional (z_union [z_literal (VStr "HKD"); z_literal (VStr "USD");
                         z_literal (VStr "CNH")]))].

Definition TradeStockPositionsSchema : Schema :=
  z_object [("symbol", optional (z_array SymbolSchema None))].

Record ToolConfig := mkToolConfig
  { description : string; zodSchema : Schema; funcName : string }.

Definition TOOLS_CONFIG : list (string * ToolConfig) :=
  [(Tool.value Tool.QuoteStaticInfo,
    mkToolConfig "This API is used to obtain the basic information of securities."
      QuoteStaticInfoSchema "quoteStaticInfo");
   (Tool.value Tool.QuoteRealtimeInfo,
    mkToolConfig "This API is used to obtain the real-time quotes of securities, and supports all types of securities."
      QuoteRealtimeInfoSchema "quoteRealtimeInfo");
   (Tool.value Tool.QuoteDepth,
    mkToolConfig "This API is used to obtain the depth data of security."
      QuoteDepthSchema "quoteDepth");
   (Tool.value Tool.QuoteTrades,
    mkToolConfig "This API is used to obtain the trades data of security."
      QuoteTradesSchema "quoteTrades");
   (Tool.value Tool.QuoteIntraday,
    mkToolConfig "This API is used to obtain the intraday data of security."
      QuoteIntradaySchema "quoteIntraday");
   (Tool.value Tool.QuoteHistoryCandlesticks,
    mkToolConfig "This API is used to obtain the history candlestick data of security."
      QuoteHistoryCandlesticksSchema "quoteHistoryCandlesticks");
   (Tool.value Tool.QuoteCapitalFlow,
    mkToolConfig "This API is used to obtain the daily capital flow intraday of security."
      QuoteCapitalFlowSchema "quoteCapitalFlow");
   (Tool.value Tool.QuoteCapitalDistribution,
    mkToolConfig "This API is used to obtain the daily capital distribution of security."
      QuoteCapitalDistributionSchema "quoteCapitalDistribution");
   (Tool.value Tool.QuoteCalcIndex,
    mkToolConfig "This API is used to obtain the calculate indexes of securities."
      QuoteCalcIndexSchema "quoteCalcIndex");
   (Tool.value Tool.QuoteWatchList,
    mkToolConfig "Get watched list" QuoteWatchListSchema "quoteWatchList");
   (Tool.value Tool.TradeHistoryExecutions,
    mkToolConfig "This API is used to get history executions, including the sell and buy records."
      TradeHistoryExecutionsSchema "tradeHistoryExecutions");
   (Tool.value Tool.TradeTodayExecutions,
    mkToolConfig "This API is used to get today executions."
      TradeTodayExecutionsSchema "tradeTodayExecutions");
   (Tool.value Tool.TradeAccountBalance,
    mkToolConfig "The API is used to obtain the available, desirable, frozen, to-be-settled, and in-transit funds (fund purchase and redemption) information for each currency of the user."
      TradeAccountBalanceSchema "tradeAccountBalance");
   (Tool.value Tool.TradeStockPositions,
    mkToolConfig "The API is used to obtain stock position information including account, stock code, number of shares held, number of available shares, average position price (calculated according to account settings), and currency."
      TradeStockPositionsSchema "tradeStockPositions")].


(** ** api.ts *)

(** The SDK and the environment are a [World]: it decides, from what has
    happened so far, whether [Config.fromEnv()] throws, whether
    [TradeContext.new] or [QuoteContext.new] rejects, and what a method of a
    context settles to.  Every call is recorded, newest first. *)
Inductive SessionKind := TradeContext | QuoteContext.

Record Config := mkConfig { config_id : nat }.

Record Context := mkContext
  { context_kind : SessionKind; context_id : nat; context_config : Config }.

Inductive Event :=
  | Config_fromEnv_called (result : Outcome Config)
  | Context_new_called (kind : SessionKind) (config : Config)
      (result : Outcome Context)
  | method_called (context : Context) (method : string) (args : list Value)
      (result : Outcome Value).

Definition Log := list Event.

Record World := mkWorld
  { env_fault : Log -> option Fault;
    connect_fault : SessionKind -> Config -> Log -> option Fault;
    respond : Context -> string -> list Value -> Log -> Outcome Value }.

Variable world : World.

(** [JSON.stringify], at its TypeScript type. *)
Variable JSON_stringify : Value -> string.

Record LongBridge := mkLongBridge
  { _config : option Config;
    tradeContext : option Context;
    quoteContext : option Context }.

(** [new LongBridge()] *)
Definition new_LongBridge : LongBridge := mkLongBridge None None None.

(** A computation on [this] and on the log, which returns or throws. *)
Definition M (A : Type) : Type := LongBridge -> Log -> Outcome A * LongBridge * Log.

Definition ret {A : Type} (a : A) : M A := fun this log => (Return a, this, log).

Definition throw {A : Type} (e : Fault) : M A := fun this log => (Throw e, this, log).

Definition bind {A B : Type} (m : M A) (k : A -> M B) : M B :=
  fun this log =>
    match m this log with
    | (Return a, this', log') => k a this' log'
    | (Throw e, this', log') => (Throw e, this', log')
    end.

Notation "x <- m ;; k" := (bind m (fun x => k))
  (at level 61, m at next level, right associativity).

(** [try { body } catch (error) { handler }] *)
Definition try_catch {A : Type} (body : M A) (handler : Fault -> M A) : M A :=
  fun this log =>
    match body this log with
    | (Return a, this', log') => (Return a, this', log')
    | (Throw e, this', log') => handler e this' log'
    end.

(** A synchronous call that may throw, and [await promise]. *)
Definition lift {A : Type} (o : Outcome A) : M A := fun this log => (o, this, log).
Definition await {A : Type} (promise : Outcome A) : M A := lift promise.

Definition read : M LongBridge := fun this log => (Return this, this, log).
Definition write (this' : LongBridge) : M unit := fun _ log => (Return tt, this', log).

Definition Config_fromEnv : M Config :=
  fun this log =>
    let result :=
      match env_fault world log with
      | Some e => Throw e
      | None => Return (mkConfig (length log))
      end in
    (result, this, Config_fromEnv_called result :: log).

(** [TradeContext.new(config)] and [QuoteContext.new(config)]: the call
    returns a promise, here with what it settles to. *)
Definition Context_new (kind : SessionKind) (config : Config) : M (Outcome Context) :=
  fun this log =>
    let result :=
      match connect_fault world kind config log with
      | Some e => Throw e
      | None => Return (mkContext kind (length log) config)
      end in
    (Return result, this, Context_new_called kind config result :: log).

(** [context.method(...args)], a promise as well. *)
Definition call (context : Context) (method : string) (args : list Value)
  : M (Outcome Value) :=
  fun this log =>
    let result := respond world context method args log in
    (Return result, this, method_called context method args result :: log).

(** [private get config()] *)
Definition config : M Config :=
  this <- read ;;
  match _config this with
  | Some c => ret c
  | None =>
      c <- Config_fromEnv ;;
      this <- read ;;
      _ <- write (mkLongBridge (Some c) (tradeContext this) (quoteContext this)) ;;
      ret c
  end.

(** [getTradeContext] up to its [await], and from there on.  [inl] is the
    context found in the field, [inr] the promise awaited. *)
Definition getTradeContext_start : M (Context + Outcome Context) :=
  this <- read ;;
  match tradeContext this with
  | Some c => ret (inl c)
  | None =>
      c <- config ;;
      promise <- Context_new TradeContext c ;;
      ret (inr promise)
  end.

Definition getTradeContext_resume (at_await : Context + Outcome Context)
  : M Context :=
  match at_await with
  | inl c => ret c
  | inr promise =>
      c <- await promise ;;
      this <- read ;;
      _ <- write (mkLongBridge (_config this) (Some c) (quoteContext this)) ;;
      ret c
  end.

Definition getTradeContext : M Context :=
  at_await <- getTradeContext_start ;; getTradeContext_resume at_await.

Definition getQuoteContext_start : M (Context + Outcome Context) :=
  this <- read ;;
  match quoteContext this with
  | Some c => ret (inl c)
  | None =>
      c <- config ;;
      promise <- Context_new QuoteContext c ;;
      ret (inr promise)
  end.

Definition getQuoteContext_resume (at_await : Context + Outcome Context)
  : M Context :=
  match at_await with
  | inl c => ret c
  | inr promise =>
      c <- await promise ;;
      this <- read ;;
      _ <- write (mkLongBridge (_config this) (tradeContext this) (Some c)) ;;
      ret c
  end.

Definition getQuoteContext : M Context :=
  at_await <- getQuoteContext_start ;; getQuoteContext_resume at_await.

Record ContentBlock := mkBlock { type : string; text : string }.

Record ServerResult := mkResult
  { content : list ContentBlock; isError : option bool }.

Definition handleErrorResult (error : Fault) : ServerResult :=
  let errorMessage :=
    match error with
    | ZodError iss => fromError_toString iss
    | JsError message => message
    | Thrown v => JSON_stringify v
    end in
  mkResult [mkBlock "text" errorMessage] (Some true).

Definition handleSuccessResult (result : list Value) : ServerResult :=
  mkResult (map (fun item => mkBlock "text" (JSON_stringify item)) result) None.

(** [...v] in an argument list: the elements of an array, the characters
    of a string; any other value here is not iterable. *)
Definition spread (v : Value) : Outcome (list Value) :=
  match v with
  | VArr items => Return items
  | VStr s =>
      Return (map (fun c => VStr (String c EmptyString)) (list_ascii_of_string s))
  | _ => Throw (JsError "TypeError: Spread syntax requires ...iterable[Symbol.iterator] to be a function")
  end.

(** The methods of [LongBridge]: the [try] block of each, and the method. *)
Definition quoteStaticInfo_try (args : Value) : M ServerResult :=
  params <- lift (parse QuoteStaticInfoSchema args) ;;
  quoteContext <- getQuoteContext ;;
  promise <- call quoteContext "staticInfo" [get "symbol" params] ;;
  staticInfo <- await promise ;;
  items <- lift (spread staticInfo) ;;
  ret (handleSuccessResult items).

Definition quoteStaticInfo (args : Value) : M ServerResult :=
  try_catch (quoteStaticInfo_try args) (fun error => ret (handleErrorResult error)).

Definition quoteRealtimeInfo_try (args : Value) : M ServerResult :=
  params <- lift (parse QuoteRealtimeInfoSchema args) ;;
  quoteContext <- getQuoteContext ;;
  promise <- call quoteContext "quote" [get "symbol" params] ;;
  realtimeInfo <- await promise ;;
  items <- lift (spread realtimeInfo) ;;
  ret (handleSuccessResult items).

Definition quoteRealtimeInfo (args : Value) : M ServerResult :=
  try_catch (quoteRealtimeInfo_try args) (fun error => ret (handleErrorResult error)).

Definition quoteDepth_try (args : Value) : M ServerResult :=
  params <- lift (parse QuoteDepthSchema args) ;;
  quoteContext <- getQuoteContext ;;
  promise <- call quoteContext "depth" [get "symbol" params] ;;
  depth <- await promise ;;
  ret (handleSuccessResult [depth]).

Definition quoteDepth (args : Value) : M ServerResult :=
  try_catch (quoteDepth_try args) (fun error => ret (handleErrorResult error)).

Definition quoteTrades_try (args : Value) : M ServerResult :=
  params <- lift (parse QuoteTradesSchema args) ;;
  quoteContext <- getQuoteContext ;;
  promise <- call quoteContext "trades" [get "symbol" params; get "count" params] ;;
  trades <- await promise ;;
  items <- lift (spread trades) ;;
  ret (handleSuccessResult items).

Definition quoteTrades (args : Value) : M ServerResult :=
  try_catch (quoteTrades_try args) (fun error => ret (handleErrorResult error)).

Definition quoteIntraday_try (args : Value) : M ServerResult :=
  params <- lift (parse QuoteIntradaySchema args) ;;
  quoteContext <- getQuoteContext ;;
  promise <- call quoteContext "intraday" [get "symbol" params] ;;
  intraday <- await promise ;;
  ret (handleSuccessResult [intraday]).

Definition quoteIntraday (args : Value) : M ServerResult :=
  try_catch (quoteIntraday_try args) (fun error => ret (handleErrorResult error)).

Definition quoteCapitalFlow_try (args : Value) : M ServerResult :=
  params <- lift (parse QuoteCapitalFlowSchema args) ;;
  quoteContext <- getQuoteContext ;;
  promise <- call quoteContext "capitalFlow" [get "symbol" params] ;;
  capitalFlow <- await promise ;;
  ret (handleSuccessResult [capitalFlow]).

Definition quoteCapitalFlow (args : Value) : M ServerResult :=
  try_catch (quoteCapitalFlow_try args) (fun error => ret (handleErrorResult error)).

Definition quoteCapitalDistribution_try (args : Value) : M ServerResult :=
  params <- lift (parse QuoteCapitalDistributionSchema args) ;;
  quoteContext <- getQuoteContext ;;
  promise <- call quoteContext "capitalDistribution" [get "symbol" params] ;;
  capitalDistribution <- await promise ;;
  ret (handleSuccessResult [capitalDistribution]).

Definition quoteCapitalDistribution (args : Value) : M ServerResult :=
  try_catch (quoteCapitalDistribution_try args) (fun error => ret (handleErrorResult error)).

Definition quoteCalcIndex_try (args : Value) : M ServerResult :=
  params <- lift (parse QuoteCalcIndexSchema args) ;;
  quoteContext <- getQuoteContext ;;
  promise <- call quoteContext "calcIndexes" [get "symbols" params; get "calc_index" params] ;;
  calcIndexes <- await promise ;;
  ret (handleSuccessResult [calcIndexes]).

Definition quoteCalcIndex (args : Value) : M ServerResult :=
  try_catch (quoteCalcIndex_try args) (fun error => ret (handleErrorResult error)).

Definition tradeHistoryExecutions_try (args : Value) : M ServerResult :=
  params <- lift (parse TradeHistoryExecutionsSchema args) ;;
  tradeContext <- getTradeContext ;;
  promise <- call tradeContext "historyExecutions" [params] ;;
  historyExecutions <- await promise ;;
  items <- lift (spread historyExecutions) ;;
  ret (handleSuccessResult items).

Definition tradeHistoryExecutions (args : Value) : M ServerResult :=
  try_catch (tradeHistoryExecutions_try args) (fun error => ret (handleErrorResult error)).

Definition tradeTodayExecutions_try (args : Value) : M ServerResult :=
  params <- lift (parse TradeTodayExecutionsSchema args) ;;
  tradeContext <- getTradeContext ;;
  promise <- call tradeContext "todayExecutions" [params] ;;
  todayExecutions <- await promise ;;
  items <- lift (spread todayExecutions) ;;
  ret (handleSuccessResult items).

Definition tradeTodayExecutions (args : Value) : M ServerResult :=
  try_catch (tradeTodayExecutions_try args) (fun error => ret (handleErrorResult error)).

Definition tradeAccountBalance_try (args : Value) : M ServerResult :=
  params <- lift (parse TradeAccountBalanceSchema args) ;;
  tradeContext <- getTradeContext ;;
  promise <- call tradeContext "accountBalance" [get "currency" params] ;;
  accountBalance <- await promise ;;
  items <- lift (spread accountBalance) ;;
  ret (handleSuccessResult items).

Definition tradeAccountBalance (args : Value) : M ServerResult :=
  try_catch (tradeAccountBalance_try args) (fun error => ret (handleErrorResult error)).

Definition tradeStockPositions_try (args : Value) : M ServerResult :=
  params <- lift (parse TradeStockPositionsSchema args) ;;
  tradeContext <- getTradeContext ;;
  promise <- call tradeContext "stockPositions" [get "symbol" params] ;;
  stockPositions <- await promise ;;
  items <- lift (spread (get "channels" stockPositions)) ;;
  ret (handleSuccessResult items).

Definition tradeStockPositions (args : Value) : M ServerResult :=
  try_catch (tradeStockPositions_try args)
    (fun error => ret (handleErrorResult error)).

Definition quoteWatchList_try (args : Value) : M ServerResult :=
  quoteContext <- getQuoteContext ;;
  promise <- call quoteContext "watchlist" [] ;;
  watchListGroup <- await promise ;;
  items <- lift (spread watchListGroup) ;;
  ret (handleSuccessResult items).

Definition quoteWatchList (args : Value) : M ServerResult :=
  try_catch (quoteWatchList_try args) (fun error => ret (handleErrorResult error)).

Definition quoteHistoryCandlesticks_try (args : Value) : M ServerResult :=
  params <- lift (parse QuoteHistoryCandlesticksSchema args) ;;
  quoteContext <- getQuoteContext ;;
  historyCandlesticksPromise <-
    (if is_num 1 (get "query_type" params)
     then
       call quoteContext "historyCandlesticksByOffset"
         [get "symbol" params; get "period" params; get "adjust_type" params;
          opt_get "forward" (get "offset_request" params);
          opt_get "datetime" (get "offset_request" params);
          nullish_or (opt_get "count" (get "offset_request" params)) (num 10)]
     else
       call quoteContext "historyCandlesticksByDate"
         [get "symbol" params; get "period" params; get "adjust_type" params;
          opt_get "start" (get "date_request" params);
          opt_get "end" (get "date_request" params)]) ;;
  historyCandlesticks <- await historyCandlesticksPromise ;;
  ret (handleSuccessResult [historyCandlesticks]).

Definition quoteHistoryCandlesticks (args : Value) : M ServerResult :=
  try_catch (quoteHistoryCandlesticks_try args)
    (fun error => ret (handleErrorResult error)).

(** [longBridge[funcName]] *)
Definition LongBridge_method (funcName : string) : option (Value -> M ServerResult) :=
  if funcName =? "quoteStaticInfo" then Some quoteStaticInfo
  else if funcName =? "quoteRealtimeInfo" then Some quoteRealtimeInfo
  else if funcName =? "quoteDepth" then Some quoteDepth
  else if funcName =? "quoteTrades" then Some quoteTrades
  else if funcName =? "quoteIntraday" then Some quoteIntraday
  else if funcName =? "quoteHistoryCandlesticks" then Some quoteHistoryCandlesticks
  else if funcName =? "quoteCapitalFlow" then Some quoteCapitalFlow
  else if funcName =? "quoteCapitalDistribution" then Some quoteCapitalDistribution
  else if funcName =? "quoteCalcIndex" then Some quoteCalcIndex
  else if funcName =? "quoteWatchList" then Some quoteWatchList
  else if funcName =? "tradeHistoryExecutions" then Some tradeHistoryExecutions
  else if funcName =? "tradeTodayExecutions" then Some tradeTodayExecutions
  else if funcName =? "tradeAccountBalance" then Some tradeAccountBalance
  else if funcName =? "tradeStockPositions" then Some tradeStockPositions
  else None.

(** ** index.ts *)

Fixpoint assoc {A : Type} (k : string) (table : list (string * A)) : option A :=
  match table with
  | [] => None
  | (k', a) :: rest => if k =? k' then Some a else assoc k rest
  end.

Definition not_a_function {A : Type} : Outcome A :=
  Throw (JsError "TypeError: not a function").

(** The handler of [CallToolRequestSchema]: [name] is [request.params.name]
    and [arguments] is [request.params.arguments].  The instance made for
    the request is dropped when the handler returns; the log stays. *)
Definition CallToolRequest_handler (name : string) (arguments : Value) (log : Log)
  : Outcome ServerResult * Log :=
  let longBridge := new_LongBridge in
  match safeParse ToolNameSchema (VStr name) with
  | Throw e => (Throw e, log)
  | Return (SafeSuccess (VStr name)) =>
      match assoc name TOOLS_CONFIG with
      | Some tool =>
          match LongBridge_method (funcName tool) with
          | Some method =>
              let '(result, _, log') := method arguments longBridge log in
              (result, log')
          | None => (not_a_function, log)
          end
      | None => (not_a_function, log)
      end
  | Return (SafeSuccess _) => (not_a_function, log)
  | Return (SafeError error) => (Return (handleErrorResult error), log)
  end.

(** The requests of a process lifetime, one after the other. *)
Fixpoint serve (requests : list (string * Value)) (log : Log)
  : list (Outcome ServerResult) * Log :=
  match requests with
  | [] => ([], log)
  | (name, arguments) :: rest =>
      let '(result, log') := CallToolRequest_handler name arguments log in
      let '(results, log'') := serve rest log' in
      (result :: results, log'')
  end.

(** [zodToJsonSchema], which renders a schema for the catalogue. *)
Variable zodToJsonSchema : Schema -> Value.

Record ToolEntry := mkToolEntry
  { tool_name : string; tool_description : string; inputSchema : Value }.

(** The handler of [ListToolsRequestSchema]: the entries of [TOOLS_CONFIG]
    in their order. *)
Definition ListToolsRequest_handler : list ToolEntry :=
  map (fun '(name, config) =>
         mkToolEntry name (description config) (zodToJsonSchema (zodSchema config)))
    TOOLS_CONFIG.


(** ** Sample parameters *)

(** One choice of the parameters, for the closed examples: each member of
    an enumeration numbered by its place in the schema, an SDK whose
    constructor error names the days of the month, a world in which
    nothing fails and every method answers with three items, and a
    serializer that tells those items apart. *)
Definition sample_sdk : Longport :=
  {| NaiveDate_message := fun y m _ =>
       "day must be in the range 1..="
       ++ NilZero.string_of_int (Z.to_int (days_in_month y m)) |}.

Fixpoint index_of {A : Type} (eqb : A -> A -> bool) (a : A) (l : list A) : Z :=
  match l with
  | [] => 0
  | x :: rest => if eqb a x then 1 else 1 + index_of eqb a rest
  end%Z.

Definition Period_eqb (a b : Period.t) : bool :=
  match a, b with
  | Period.Min_1, Period.Min_1 | Period.Min_2, Period.Min_2
  | Period.Min_3, Period.Min_3 | Period.Min_5, Period.Min_5
  | Period.Min_10, Period.Min_10 | Period.Min_15, Period.Min_15
  | Period.Min_20, Period.Min_20 | Period.Min_30, Period.Min_30
  | Period.Min_45, Period.Min_45 | Period.Min_60, Period.Min_60
  | Period.Min_120, Period.Min_120 | Period.Min_180, Period.Min_180
  | Period.Min_240, Period.Min_240 | Period.Day, Period.Day
  | Period.Week, Period.Week | Period.Month, Period.Month
  | Period.Quarter, Period.Quarter | Period.Year, Period.Year => true
  | _, _ => false
  end.

Definition sample_Period_value (p : Period.t) : Z :=
  index_of Period_eqb p Period.listed.

Definition sample_AdjustType_value (a : AdjustType.t) : Z :=
  match a with AdjustType.NoAdjust => 0 | AdjustType.ForwardAdjust => 1 end.

Definition sample_CalcIndex_value (c : CalcIndex.t) : Z := 0.

Definition sample_datetimeRegex (s : string) : bool := (String.length s =? 20)%nat.

Definition sample_items : list Value := [VStr "a"; VStr "b"; VStr "c"].

Definition sample_world : World :=
  mkWorld (fun _ => None) (fun _ _ _ => None)
    (fun _ _ _ _ => Return (VArr sample_items)).

Definition sample_stringify (v : Value) : string :=
  match v with
  | VStr s => dq ++ s ++ dq
  | VArr items => "[" ++ string_of_nat (length items) ++ " items]"
  | _ => "{}"
  end.

(** A backend that rejects every method call. *)
Definition failing_world : World :=
  mkWorld (fun _ => None) (fun _ _ _ => None)
    (fun _ _ _ _ => Throw (JsError "backend failure")).


(** A backend that refuses every connection. *)
Definition offline_world : World :=
  mkWorld (fun _ => None) (fun _ _ _ => Some (JsError "connection refused"))
    (fun _ _ _ _ => Return (VArr sample_items)).

(** An environment without credentials. *)
Definition bare_world : World :=
  mkWorld (fun _ => Some (JsError "missing credentials")) (fun _ _ _ => None)
    (fun _ _ _ _ => Return (VArr sample_items)).


(** ** Vocabulary of the statements *)

(** The string written with the decimal digits [ds], and the number those
    digits denote. *)
Definition digit_char (n : nat) : ascii := ascii_of_nat (48 + n).

Definition digits_string (ds : list nat) : string :=
  string_of_list_ascii (map digit_char ds).

Definition decimal (ds : list nat) : Z :=
  fold_left (fun acc d => 10 * acc + Z.of_nat d)%Z ds 0%Z.

Definition are_digits (ds : list nat) : Prop := Forall (fun d => (d < 10)%nat) ds.

(** The range checks of the two parsers. *)
Definition date_out_of_range (m d : Z) : bool :=
  ((m <? 1) || (m >? 12) || (d <? 1) || (d >? 31))%Z.

Definition time_out_of_range (h m s : Z) : bool :=
  ((h <? 0) || (h >? 23) || (m <? 0) || (m >? 59) || (s <? 0) || (s >? 59))%Z.

(** The [try] block of the method that [TOOLS_CONFIG] names for a tool. *)
Definition try_block (tool : Tool.t) : Value -> M ServerResult :=
  match tool with
  | Tool.QuoteStaticInfo => quoteStaticInfo_try
  | Tool.QuoteRealtimeInfo => quoteRealtimeInfo_try
  | Tool.QuoteDepth => quoteDepth_try
  | Tool.QuoteTrades => quoteTrades_try
  | Tool.QuoteIntraday => quoteIntraday_try
  | Tool.QuoteHistoryCandlesticks => quoteHistoryCandlesticks_try
  | Tool.QuoteCapitalFlow => quoteCapitalFlow_try
  | Tool.QuoteCapitalDistribution => quoteCapitalDistribution_try
  | Tool.QuoteCalcIndex => quoteCalcIndex_try
  | Tool.QuoteWatchList => quoteWatchList_try
  | Tool.TradeHistoryExecutions => tradeHistoryExecutions_try
  | Tool.TradeTodayExecutions => tradeTodayExecutions_try
  | Tool.TradeAccountBalance => tradeAccountBalance_try
  | Tool.TradeStockPositions => tradeStockPositions_try
  end.

(** The stages of a [try] block: validation, session construction, the
    backend call and the building of the result. *)
Definition validated (tool : Tool.t) (args : Value) : Outcome Value :=
  match tool with
  | Tool.QuoteStaticInfo => parse QuoteStaticInfoSchema args
  | Tool.QuoteRealtimeInfo => parse QuoteRealtimeInfoSchema args
  | Tool.QuoteDepth => parse QuoteDepthSchema args
  | Tool.QuoteTrades => parse QuoteTradesSchema args
  | Tool.QuoteIntraday => parse QuoteIntradaySchema args
  | Tool.QuoteHistoryCandlesticks => parse QuoteHistoryCandlesticksSchema args
  | Tool.QuoteCapitalFlow => parse QuoteCapitalFlowSchema args
  | Tool.QuoteCapitalDistribution => parse QuoteCapitalDistributionSchema args
  | Tool.QuoteCalcIndex => parse QuoteCalcIndexSchema args
  | Tool.QuoteWatchList => Return VUndefined
  | Tool.TradeHistoryExecutions => parse TradeHistoryExecutionsSchema args
  | Tool.TradeTodayExecutions => parse TradeTodayExecutionsSchema args
  | Tool.TradeAccountBalance => parse TradeAccountBalanceSchema args
  | Tool.TradeStockPositions => parse TradeStockPositionsSchema args
  end.

Definition session (tool : Tool.t) : M Context :=
  match tool with
  | Tool.TradeHistoryExecutions | Tool.TradeTodayExecutions
  | Tool.TradeAccountBalance | Tool.TradeStockPositions => getTradeContext
  | _ => getQuoteContext
  end.

Definition request (tool : Tool.t) (params : Value) : string * list Value :=
  match tool with
  | Tool.QuoteStaticInfo => ("staticInfo", [get "symbol" params])
  | Tool.QuoteRealtimeInfo => ("quote", [get "symbol" params])
  | Tool.QuoteDepth => ("depth", [get "symbol" params])
  | Tool.QuoteTrades => ("trades", [get "symbol" params; get "count" params])
  | Tool.QuoteIntraday => ("intraday", [get "symbol" params])
  | Tool.QuoteHistoryCandlesticks =>
      if is_num 1 (get "query_type" params)
      then ("historyCandlesticksByOffset",
            [get "symbol" params; get "period" params; get "adjust_type" params;
             opt_get "forward" (get "offset_request" params);
             opt_get "datetime" (get "offset_request" params);
             nullish_or (opt_get "count" (get "offset_request" params)) (num 10)])
      else ("historyCandlesticksByDate",
            [get "symbol" params; get "period" params; get "adjust_type" params;
             opt_get "start" (get "date_request" params);
             opt_get "end" (get "date_request" params)])
  | Tool.QuoteCapitalFlow => ("capitalFlow", [get "symbol" params])
  | Tool.QuoteCapitalDistribution => ("capitalDistribution", [get "symbol" params])
  | Tool.QuoteCalcIndex =>
      ("calcIndexes", [get "symbols" params; get "calc_index" params])
  | Tool.QuoteWatchList => ("watchlist", [])
  | Tool.TradeHistoryExecutions => ("historyExecutions", [params])
  | Tool.TradeTodayExecutions => ("todayExecutions", [params])
  | Tool.TradeAccountBalance => ("accountBalance", [get "currency" params])
  | Tool.TradeStockPositions => ("stockPositions", [get "symbol" params])
  end.

(** How a tool hands the answer of the backend to [handleSuccessResult]. *)
Inductive Passing := spread_answer | spread_channels | whole_answer.

Definition passing (tool : Tool.t) : Passing :=
  match tool with
  | Tool.QuoteStaticInfo | Tool.QuoteRealtimeInfo | Tool.QuoteTrades
  | Tool.QuoteWatchList | Tool.TradeHistoryExecutions
  | Tool.TradeTodayExecutions | Tool.TradeAccountBalance => spread_answer
  | Tool.TradeStockPositions => spread_channels
  | Tool.QuoteDepth | Tool.QuoteIntraday | Tool.QuoteHistoryCandlesticks
  | Tool.QuoteCapitalFlow | Tool.QuoteCapitalDistribution
  | Tool.QuoteCalcIndex => whole_answer
  end.

Definition passed (tool : Tool.t) (answer : Value) : Outcome (list Value) :=
  match passing tool with
  | spread_answer => spread answer
  | spread_channels => spread (get "channels" answer)
  | whole_answer => Return [answer]
  end.

Definition staged (tool : Tool.t) (args : Value) : M ServerResult :=
  fun this log =>
    match validated tool args with
    | Throw e => (Throw e, this, log)
    | Return params =>
        match session tool this log with
        | (Throw e, this', log') => (Throw e, this', log')
        | (Return context, this', log') =>
            let '(method, margs) := request tool params in
            let answer := respond world context method margs log' in
            let log'' := method_called context method margs answer :: log' in
            match answer with
            | Throw e => (Throw e, this', log'')
            | Return a =>
                match passed tool a with
                | Throw e => (Throw e, this', log'')
                | Return items => (Return (handleSuccessResult items), this', log'')
                end
            end
        end
    end.

(** A fault [e] is thrown at one of the stages. *)
Inductive faults_with (tool : Tool.t) (args : Value) (this : LongBridge)
  (log : Log) (e : Fault) : Prop :=
  | during_validation :
      validated tool args = Throw e -> faults_with tool args this log e
  | during_session_construction params this' log' :
      validated tool args = Return params ->
      session tool this log = (Throw e, this', log') ->
      faults_with tool args this log e
  | during_backend_call params context this' log' :
      validated tool args = Return params ->
      session tool this log = (Return context, this', log') ->
      respond world context (fst (request tool params))
        (snd (request tool params)) log' = Throw e ->
      faults_with tool args this log e
  | during_result_building params context this' log' answer :
      validated tool args = Return params ->
      session tool this log = (Return context, this', log') ->
      respond world context (fst (request tool params))
        (snd (request tool params)) log' = Return answer ->
      passed tool answer = Throw e ->
      faults_with tool args this log e.

Definition serialized (item : Value) : ContentBlock :=
  mkBlock "text" (JSON_stringify item).

(** The envelope has one block for each element, in order. *)
Definition one_block_per_element (items : list Value) (result : ServerResult)
  : Prop :=
  length (content result) = length items /\
  forall i item,
    nth_error items i = Some item ->
    nth_error (content result) i = Some (serialized item).


(** A world in which the environment has the credentials and the backend
    accepts every connection. *)
Definition never_fails : Prop :=
  (forall log, env_fault world log = None) /\
  (forall kind config log, connect_fault world kind config log = None).

(** Counting what the log records. *)
Definition SessionKind_eqb (a b : SessionKind) : bool :=
  match a, b with
  | TradeContext, TradeContext | QuoteContext, QuoteContext => true
  | _, _ => false
  end.

Definition constructions (kind : SessionKind) (log : Log) : nat :=
  length (filter (fun ev => match ev with
                            | Context_new_called k _ _ => SessionKind_eqb k kind
                            | _ => false
                            end) log).

Definition config_loads (log : Log) : nat :=
  length (filter (fun ev => match ev with
                            | Config_fromEnv_called _ => true
                            | _ => false
                            end) log).

(** The contexts on which methods were called, oldest first. *)
Definition contexts_used (log : Log) : list Context :=
  rev (flat_map (fun ev => match ev with
                           | method_called context _ _ _ => [context]
                           | _ => []
                           end) log).

(** Two calls of [getQuoteContext] on one instance, the second entered
    while the first is at its [await]: each runs up to its [await], then
    each resumes. *)
Definition two_getQuoteContext : M (Context * Context) :=
  first_at_await <- getQuoteContext_start ;;
  second_at_await <- getQuoteContext_start ;;
  first <- getQuoteContext_resume first_at_await ;;
  second <- getQuoteContext_resume second_at_await ;;
  ret (first, second).

(** The same two calls made by two requests in flight together, each on
    the instance that the handler of [CallToolRequestSchema] has made for
    it. *)
Definition two_requests_getQuoteContext (log : Log)
  : Outcome Context * Outcome Context * Log :=
  let '(first_at_await, first_this, log1) :=
    getQuoteContext_start new_LongBridge log in
  let '(second_at_await, second_this, log2) :=
    getQuoteContext_start new_LongBridge log1 in
  let '(first, _, log3) :=
    (at_await <- lift first_at_await ;; getQuoteContext_resume at_await)
      first_this log2 in
  let '(second, _, log4) :=
    (at_await <- lift second_at_await ;; getQuoteContext_resume at_await)
      second_this log3 in
  (first, second, log4).


(** ** Vocabulary of the further properties *)

(** The characters of a ticker. *)
Definition ticker_char (c : ascii) : bool := is_upper c || is_digit c.

(** A schema is clean when its valid results carry no issue. *)
Definition clean (schema : Schema) : Prop :=
  forall path v r, schema path v = Return r -> status r = valid -> issues r = [].


(** The context a tool works on. *)
Definition session_kind (tool : Tool.t) : SessionKind :=
  match tool with
  | Tool.TradeHistoryExecutions | Tool.TradeTodayExecutions
  | Tool.TradeAccountBalance | Tool.TradeStockPositions => TradeContext
  | _ => QuoteContext
  end.


(** * Theorems *)

(** ** The primitive parsers *)

Lemma is_digit_char (c : ascii) :
  is_digit c = true -> exists n, (n < 10)%nat /\ c = digit_char n.
Proof.
  unfold is_digit, digit_char. intros H.
  apply andb_true_iff in H as [H1 H2].
  apply Nat.leb_le in H1, H2.
  exists (nat_of_ascii c - 48)%nat. split; [lia|].
  replace (48 + (nat_of_ascii c - 48))%nat with (nat_of_ascii c) by lia.
  now rewrite ascii_nat_embedding.
Qed.

Lemma digit_char_is_digit (n : nat) : (n < 10)%nat -> is_digit (digit_char n) = true.
Proof.
  intros H. do 10 (destruct n as [|n]; [reflexivity|]). lia.
Qed.

Lemma digit_char_value (n : nat) :
  (n < 10)%nat -> digit_value (digit_char n) = Z.of_nat n.
Proof.
  intros H. do 10 (destruct n as [|n]; [reflexivity|]). lia.
Qed.

Lemma digits_prefix_digits (ds : list nat) (acc : Z) :
  are_digits ds ->
  digits_prefix acc (digits_string ds)
  = fold_left (fun a d => 10 * a + Z.of_nat d)%Z ds acc.
Proof.
  intros H. revert acc. induction H as [|d ds Hd _ IH]; intros acc.
  - reflexivity.
  - cbn [digits_string map string_of_list_ascii digits_prefix fold_left].
    rewrite (digit_char_is_digit d Hd), (digit_char_value d Hd).
    apply IH.
Qed.

Lemma parseInt10_digits (d : nat) (ds : list nat) :
  are_digits (d :: ds) ->
  parseInt10 (digits_string (d :: ds)) = Some (decimal (d :: ds)).
Proof.
  intros H. unfold decimal. rewrite <- (digits_prefix_digits _ 0%Z H).
  inversion H as [|? ? Hd Hds]; subst.
  do 10 (destruct d as [|d]; [reflexivity|]). lia.
Qed.

Lemma all_digits_string (s : string) :
  all_digits s = true ->
  exists ds, are_digits ds /\ s = digits_string ds /\ length ds = String.length s.
Proof.
  unfold all_digits. induction s as [|c s IH]; cbn [list_ascii_of_string forallb].
  - intros _. exists []. repeat split. constructor.
  - intros H. apply andb_true_iff in H as [Hc Hs].
    destruct (IH Hs) as (ds & Hds & -> & Hlen).
    destruct (is_digit_char c Hc) as (n & Hn & ->).
    exists (n :: ds). repeat split.
    + now constructor.
    + cbn. now rewrite Hlen.
Qed.

Lemma digits_string_all_digits (ds : list nat) :
  are_digits ds ->
  all_digits (digits_string ds) = true
  /\ String.length (digits_string ds) = length ds.
Proof.
  unfold all_digits.
  induction 1 as [|d ds Hd _ [IH1 IH2]]; [now split|].
  cbn [digits_string map string_of_list_ascii list_ascii_of_string forallb
       String.length length].
  rewrite (digit_char_is_digit d Hd). unfold digits_string in IH1, IH2.
  now rewrite IH1, IH2.
Qed.

Lemma parseNaiveDate_digits (a b c d e f g h : nat) :
  are_digits [a; b; c; d; e; f; g; h] ->
  parseNaiveDate (digits_string [a; b; c; d; e; f; g; h])
  = if date_out_of_range (decimal [e; f]) (decimal [g; h])
    then Throw dateValueError
    else new_NaiveDate (decimal [a; b; c; d]) (decimal [e; f]) (decimal [g; h]).
Proof.
  intros H. unfold parseNaiveDate, re_date.
  destruct (digits_string_all_digits _ H) as [-> ->].
  cbn [length Nat.eqb andb negb].
  change (js_substring (digits_string [a; b; c; d; e; f; g; h]) 0 4)
    with (digits_string [a; b; c; d]).
  change (js_substring (digits_string [a; b; c; d; e; f; g; h]) 4 6)
    with (digits_string [e; f]).
  change (js_substring (digits_string [a; b; c; d; e; f; g; h]) 6 8)
    with (digits_string [g; h]).
  unfold are_digits in H.
  repeat match goal with
         | H : Forall _ (_ :: _) |- _ => inversion H; clear H; subst
         end.
  rewrite !parseInt10_digits
    by (repeat (apply Forall_cons; [assumption|]); apply Forall_nil).
  cbn [nan_or]. fold (date_out_of_range (decimal [e; f]) (decimal [g; h])).
  now destruct (date_out_of_range _ _).
Qed.

Lemma days_in_month_bounds (y m : Z) : (28 <= days_in_month y m <= 31)%Z.
Proof.
  unfold days_in_month.
  destruct (m =? 2)%Z; [destruct (is_leap_year y); lia|].
  destruct ((m =? 4) || (m =? 6) || (m =? 9) || (m =? 11))%Z; lia.
Qed.

Lemma new_NaiveDate_in_calendar (y m d : Z) :
  (1 <= m <= 12)%Z -> (1 <= d <= days_in_month y m)%Z ->
  new_NaiveDate y m d = Return (mkNaiveDate y m d).
Proof.
  intros Hm Hd. unfold new_NaiveDate.
  destruct (Z.leb_spec 1 m); [|lia]. destruct (Z.leb_spec m 12); [|lia].
  destruct (Z.leb_spec 1 d); [|lia].
  destruct (Z.leb_spec d (days_in_month y m)); [reflexivity|lia].
Qed.

Lemma new_NaiveDate_off_calendar (y m d : Z) :
  ~ ((1 <= m <= 12)%Z /\ (1 <= d <= days_in_month y m)%Z) ->
  new_NaiveDate y m d = Throw (JsError (NaiveDate_message y m d)).
Proof.
  intros H. unfold new_NaiveDate.
  destruct (Z.leb_spec 1 m); [|reflexivity].
  destruct (Z.leb_spec m 12); [|reflexivity].
  destruct (Z.leb_spec 1 d); [|reflexivity].
  destruct (Z.leb_spec d (days_in_month y m)); [|reflexivity].
  exfalso. apply H. lia.
Qed.

Lemma new_NaiveDate_returns (y m d : Z) (nd : NaiveDate) :
  new_NaiveDate y m d = Return nd ->
  (1 <= m <= 12)%Z /\ (1 <= d <= days_in_month y m)%Z /\ nd = mkNaiveDate y m d.
Proof.
  intros H.
  assert (D : {(1 <= m <= 12)%Z /\ (1 <= d <= days_in_month y m)%Z}
              + {~ ((1 <= m <= 12)%Z /\ (1 <= d <= days_in_month y m)%Z)}).
  { destruct (Z_le_dec 1 m), (Z_le_dec m 12), (Z_le_dec 1 d),
      (Z_le_dec d (days_in_month y m)); first [left; lia | right; lia]. }
  destruct D as [[Hm Hd]|D].
  - rewrite (new_NaiveDate_in_calendar y m d Hm Hd) in H.
    injection H as <-. now repeat split.
  - rewrite (new_NaiveDate_off_calendar y m d D) in H. discriminate H.
Qed.

Lemma re_date_digits (s : string) :
  re_date s = true <->
  exists ds, length ds = 8%nat /\ are_digits ds /\ s = digits_string ds.
Proof.
  unfold re_date. split.
  - intros H. apply andb_true_iff in H as [Hl Hd].
    apply Nat.eqb_eq in Hl.
    destruct (all_digits_string s Hd) as (ds & H1 & H2 & H3).
    exists ds. repeat split; congruence.
  - intros (ds & Hl & Hd & ->).
    destruct (digits_string_all_digits ds Hd) as [-> ->].
    rewrite Hl. reflexivity.
Qed.

(** C5, as amended. [parseNaiveDate] returns a date exactly on the strings
    of eight ASCII digits whose month is in 1..12 and whose day is a day of
    that month in that year, and the date has the first four, next two and
    last two digits as its year, month and day; every other string is
    rejected: with the format error when it is not eight digits, with the
    value error when the month is not in 1..12 or the day not in 1..31, and
    with the error of the SDK's constructor when the day is in 1..31 and
    not in the month.  The calendar is consulted: 20230230 and 20230229 are
    refused, 20240229 is accepted. *)
Theorem parseNaiveDate_correct :
  (forall s nd,
      parseNaiveDate s = Return nd <->
      exists ys ms ds,
        length ys = 4%nat /\ length ms = 2%nat /\ length ds = 2%nat /\
        are_digits (ys ++ ms ++ ds)%list /\ s = digits_string (ys ++ ms ++ ds)%list /\
        (1 <= decimal ms <= 12)%Z /\
        (1 <= decimal ds <= days_in_month (decimal ys) (decimal ms))%Z /\
        nd = mkNaiveDate (decimal ys) (decimal ms) (decimal ds))
  /\ (forall s,
         ~ (exists ds, length ds = 8%nat /\ are_digits ds /\ s = digits_string ds) ->
         parseNaiveDate s = Throw dateFormatError)
  /\ (forall ys ms ds,
         length ys = 4%nat -> length ms = 2%nat -> length ds = 2%nat ->
         are_digits (ys ++ ms ++ ds)%list ->
         ~ ((1 <= decimal ms <= 12)%Z /\ (1 <= decimal ds <= 31)%Z) ->
         parseNaiveDate (digits_string (ys ++ ms ++ ds)%list) = Throw dateValueError)
  /\ (forall ys ms ds,
         length ys = 4%nat -> length ms = 2%nat -> length ds = 2%nat ->
         are_digits (ys ++ ms ++ ds)%list ->
         (1 <= decimal ms <= 12)%Z ->
         (days_in_month (decimal ys) (decimal ms) < decimal ds <= 31)%Z ->
         parseNaiveDate (digits_string (ys ++ ms ++ ds)%list)
         = Throw (JsError (NaiveDate_message (decimal ys) (decimal ms) (decimal ds))))
  /\ parseNaiveDate "2023101" = Throw dateFormatError
  /\ parseNaiveDate "20231301" = Throw dateValueError
  /\ parseNaiveDate "20230230" = Throw (JsError (NaiveDate_message 2023 2 30))
  /\ parseNaiveDate "20230229" = Throw (JsError (NaiveDate_message 2023 2 29))
  /\ parseNaiveDate "20240229" = Return (mkNaiveDate 2024 2 29).
Proof.
  assert (range : forall m d,
             date_out_of_range m d = false <->
             (1 <= m <= 12)%Z /\ (1 <= d <= 31)%Z).
  { intros m d. unfold date_out_of_range.
    rewrite !orb_false_iff, !Z.ltb_ge, !Z.gtb_ltb, !Z.ltb_ge. lia. }
  split; [|split; [|split; [|split; [|repeat split]]]].
  - intros s nd. split.
    + intros H.
      assert (Hre : re_date s = true).
      { unfold parseNaiveDate in H. destruct (re_date s); [reflexivity|discriminate]. }
      apply re_date_digits in Hre as (all & Hl & Hd & ->).
      list_of_length.
      rewrite (parseNaiveDate_digits _ _ _ _ _ _ _ _ Hd) in H.
      destruct (date_out_of_range _ _) eqn:E; [discriminate|].
      apply new_NaiveDate_returns in H as (Hm & Hday & ->).
      match goal with
      | Hd : are_digits [?a; ?b; ?c; ?d; ?e; ?f; ?g; ?h] |- _ =>
          exists [a; b; c; d], [e; f], [g; h]
      end.
      split; [reflexivity|]. split; [reflexivity|]. split; [reflexivity|].
      split; [exact Hd|]. split; [reflexivity|].
      split; [exact Hm|]. split; [exact Hday|reflexivity].
    + intros (ys & ms & ds & Hy & Hm & Hd & Hall & -> & Hmr & Hdr & ->).
      list_of_length. cbn [app] in *.
      rewrite (parseNaiveDate_digits _ _ _ _ _ _ _ _ Hall).
      match goal with
      | |- context [new_NaiveDate ?y ?m ?d] =>
          pose proof (days_in_month_bounds y m) as B;
          rewrite (proj2 (range m d)) by lia
      end.
      now apply new_NaiveDate_in_calendar.
  - intros s Hs. unfold parseNaiveDate.
    destruct (re_date s) eqn:E; [|reflexivity].
    exfalso. apply Hs. now apply re_date_digits.
  - intros ys ms ds Hy Hm Hd Hall Hr.
    list_of_length. cbn [app] in *.
    rewrite (parseNaiveDate_digits _ _ _ _ _ _ _ _ Hall).
    destruct (date_out_of_range _ _) eqn:E; [reflexivity|].
    exfalso. apply Hr. apply range, E.
  - intros ys ms ds Hy Hm Hd Hall Hmr Hdr.
    list_of_length. cbn [app] in *.
    rewrite (parseNaiveDate_digits _ _ _ _ _ _ _ _ Hall).
    match goal with
    | |- context [new_NaiveDate ?y ?m ?d] =>
        pose proof (days_in_month_bounds y m) as B;
        rewrite (proj2 (range m d)) by lia
    end.
    apply new_NaiveDate_off_calendar. lia.
Qed.

Lemma time_out_of_range_false (h m s : Z) :
  time_out_of_range h m s = false <->
  (0 <= h <= 23)%Z /\ (0 <= m <= 59)%Z /\ (0 <= s <= 59)%Z.
Proof.
  unfold time_out_of_range.
  rewrite !orb_false_iff, !Z.ltb_ge, !Z.gtb_ltb, !Z.ltb_ge. lia.
Qed.

Lemma parseTime_digits4 (a b c d : nat) :
  are_digits [a; b; c; d] ->
  parseTime (digits_string [a; b; c; d])
  = if time_out_of_range (decimal [a; b]) (decimal [c; d]) 0
    then Throw timeValueError
    else Return (mkTime (decimal [a; b]) (decimal [c; d]) 0).
Proof.
  intros H. unfold parseTime, re_time.
  destruct (digits_string_all_digits _ H) as [-> ->].
  cbn [length Nat.eqb Nat.ltb Nat.leb andb orb negb].
  change (js_substring (digits_string [a; b; c; d]) 0 2) with (digits_string [a; b]).
  change (js_substring (digits_string [a; b; c; d]) 2 4) with (digits_string [c; d]).
  unfold are_digits in H.
  repeat match goal with
         | H : Forall _ (_ :: _) |- _ => inversion H; clear H; subst
         end.
  rewrite !parseInt10_digits
    by (repeat (apply Forall_cons; [assumption|]); apply Forall_nil).
  cbn [nan_or]. fold (time_out_of_range (decimal [a; b]) (decimal [c; d]) 0).
  now destruct (time_out_of_range _ _ _).
Qed.

Lemma parseTime_digits6 (a b c d e f : nat) :
  are_digits [a; b; c; d; e; f] ->
  parseTime (digits_string [a; b; c; d; e; f])
  = if time_out_of_range (decimal [a; b]) (decimal [c; d]) (decimal [e; f])
    then Throw timeValueError
    else Return (mkTime (decimal [a; b]) (decimal [c; d]) (decimal [e; f])).
Proof.
  intros H. unfold parseTime, re_time.
  destruct (digits_string_all_digits _ H) as [-> ->].
  cbn [length Nat.eqb Nat.ltb Nat.leb andb orb negb].
  change (js_substring (digits_string [a; b; c; d; e; f]) 0 2)
    with (digits_string [a; b]).
  change (js_substring (digits_string [a; b; c; d; e; f]) 2 4)
    with (digits_string [c; d]).
  change (js_substring (digits_string [a; b; c; d; e; f]) 4 6)
    with (digits_string [e; f]).
  unfold are_digits in H.
  repeat match goal with
         | H : Forall _ (_ :: _) |- _ => inversion H; clear H; subst
         end.
  rewrite !parseInt10_digits
    by (repeat (apply Forall_cons; [assumption|]); apply Forall_nil).
  cbn [nan_or].
  fold (time_out_of_range (decimal [a; b]) (decimal [c; d]) (decimal [e; f])).
  now destruct (time_out_of_range _ _ _).
Qed.

Lemma re_time_digits (s : string) :
  re_time s = true <->
  exists ds, (length ds = 4%nat \/ length ds = 6%nat) /\ are_digits ds
             /\ s = digits_string ds.
Proof.
  unfold re_time. split.
  - intros H. apply andb_true_iff in H as [Hl Hd].
    apply orb_true_iff in Hl. rewrite !Nat.eqb_eq in Hl.
    destruct (all_digits_string s Hd) as (ds & H1 & H2 & H3).
    exists ds. repeat split; [lia | assumption | assumption].
  - intros (ds & Hl & Hd & ->).
    destruct (digits_string_all_digits ds Hd) as [-> ->].
    destruct Hl as [-> | ->]; reflexivity.
Qed.

(** C6. [parseTime] returns a time exactly on the strings of four or six
    ASCII digits whose hour is in 0..23 and whose minute and second are in
    0..59; four digits give second 0.  A string that is not four or six
    digits is rejected with the format error, digits out of range with the
    value error. *)
Theorem parseTime_correct :
  (forall s t,
      parseTime s = Return t <->
      exists hs ms ss,
        length hs = 2%nat /\ length ms = 2%nat /\
        (length ss = 0%nat \/ length ss = 2%nat) /\
        are_digits (hs ++ ms ++ ss)%list /\ s = digits_string (hs ++ ms ++ ss)%list /\
        (0 <= decimal hs <= 23)%Z /\ (0 <= decimal ms <= 59)%Z /\
        (0 <= decimal ss <= 59)%Z /\
        t = mkTime (decimal hs) (decimal ms) (decimal ss))
  /\ (forall s t,
         String.length s = 4%nat -> parseTime s = Return t -> second t = 0%Z)
  /\ (forall s,
         ~ (exists ds, (length ds = 4%nat \/ length ds = 6%nat) /\ are_digits ds
                       /\ s = digits_string ds) ->
         parseTime s = Throw timeFormatError)
  /\ (forall hs ms ss,
         length hs = 2%nat -> length ms = 2%nat ->
         length ss = 0%nat \/ length ss = 2%nat ->
         are_digits (hs ++ ms ++ ss)%list ->
         ~ ((0 <= decimal hs <= 23)%Z /\ (0 <= decimal ms <= 59)%Z /\
            (0 <= decimal ss <= 59)%Z) ->
         parseTime (digits_string (hs ++ ms ++ ss)%list) = Throw timeValueError)
  /\ parseTime "0935" = Return (mkTime 9 35 0)
  /\ parseTime "093512" = Return (mkTime 9 35 12)
  /\ parseTime "2460" = Throw timeValueError
  /\ parseTime "99999" = Throw timeFormatError.
Proof.
  split; [|split; [|split; [|split; [|repeat split]]]].
  - intros s t. split.
    + intros H.
      assert (Hre : re_time s = true).
      { unfold parseTime in H. destruct (re_time s); [reflexivity|discriminate]. }
      apply re_time_digits in Hre as (all & [Hl|Hl] & Hd & ->); list_of_length.
      * rewrite (parseTime_digits4 _ _ _ _ Hd) in H.
        destruct (time_out_of_range _ _ _) eqn:E; [discriminate|].
        injection H as <-. apply time_out_of_range_false in E.
        match goal with
        | Hd : are_digits [?a; ?b; ?c; ?d] |- _ => exists [a; b], [c; d], []
        end.
        repeat split; try reflexivity; try assumption; try apply E;
          try (now left); cbn; lia.
      * rewrite (parseTime_digits6 _ _ _ _ _ _ Hd) in H.
        destruct (time_out_of_range _ _ _) eqn:E; [discriminate|].
        injection H as <-. apply time_out_of_range_false in E.
        match goal with
        | Hd : are_digits [?a; ?b; ?c; ?d; ?e; ?f] |- _ =>
            exists [a; b], [c; d], [e; f]
        end.
        repeat split; try reflexivity; try assumption; try apply E; now right.
    + intros (hs & ms & ss & Hh & Hm & [Hs|Hs] & Hall & -> & Hhr & Hmr & Hsr & ->);
        list_of_length; cbn [app] in *; change (decimal []) with 0%Z in *.
      * rewrite (parseTime_digits4 _ _ _ _ Hall).
        now rewrite (proj2 (time_out_of_range_false _ _ _)
                       (conj Hhr (conj Hmr Hsr))).
      * rewrite (parseTime_digits6 _ _ _ _ _ _ Hall).
        now rewrite (proj2 (time_out_of_range_false _ _ _)
                       (conj Hhr (conj Hmr Hsr))).
  - intros s t Hlen H.
    assert (Hre : re_time s = true).
    { unfold parseTime in H. destruct (re_time s); [reflexivity|discriminate]. }
    apply re_time_digits in Hre as (all & Hl & Hd & ->).
    rewrite (proj2 (digits_string_all_digits all Hd)) in Hlen.
    list_of_length.
    rewrite (parseTime_digits4 _ _ _ _ Hd) in H.
    destruct (time_out_of_range _ _ _); [discriminate|].
    now injection H as <-.
  - intros s Hs. unfold parseTime.
    destruct (re_time s) eqn:E; [|reflexivity].
    exfalso. apply Hs. now apply re_time_digits.
  - intros hs ms ss Hh Hm [Hs|Hs] Hall Hr; list_of_length; cbn [app] in *.
    + rewrite (parseTime_digits4 _ _ _ _ Hall).
      destruct (time_out_of_range _ _ _) eqn:E; [reflexivity|].
      exfalso. apply Hr. apply time_out_of_range_false, E.
    + rewrite (parseTime_digits6 _ _ _ _ _ _ Hall).
      destruct (time_out_of_range _ _ _) eqn:E; [reflexivity|].
      exfalso. apply Hr. apply time_out_of_range_false, E.
Qed.

(** ** zod: what a successful parse says about its parts *)

Lemma lookup_app (k k' : string) (v : Value) (fields : list (string * Value)) :
  lookup k (fields ++ [(k', v)])%list
  = match lookup k fields with
    | Some x => Some x
    | None => if k =? k' then Some v else None
    end.
Proof.
  induction fields as [|[k0 v0] fields IH]; cbn [lookup app].
  - reflexivity.
  - destruct (k =? k0); [reflexivity | exact IH].
Qed.

Lemma is_undefined_true (v : Value) : is_undefined v = true -> v = VUndefined.
Proof. destruct v; (reflexivity || discriminate). Qed.

Lemma merge_status_valid (a b : Status) :
  merge_status a b = valid -> a = valid /\ b = valid.
Proof. destruct a, b; (discriminate || now split). Qed.

Lemma object_pairs_valid (path : Path) (data : Value) (shape : list (string * Schema)) :
  NoDup (map fst shape) ->
  forall st fields iss r,
    object_pairs shape path data st fields iss = Return r ->
    status r = valid ->
    (forall k, In k (map fst shape) -> lookup k fields = None) ->
    st = valid /\
    exists fields',
      value r = VObj fields' /\
      (forall k v, lookup k fields = Some v -> lookup k fields' = Some v) /\
      (forall k, lookup k fields = None -> ~ In k (map fst shape) ->
                 lookup k fields' = None) /\
      (forall k schema, In (k, schema) shape ->
         exists rk, schema (path ++ [Key k])%list (get k data) = Return rk /\
                    status rk = valid /\ get k (VObj fields') = value rk).
Proof.
  induction shape as [|[k0 s0] shape IH]; intros Hnd st fields iss r H Hv Hfresh.
  - cbn [object_pairs] in H. injection H as <-. cbn [status] in Hv. subst st.
    split; [reflexivity|]. exists fields. cbn [value].
    repeat split; auto. intros k schema [].
  - cbn [object_pairs] in H. cbn [map fst] in Hnd, Hfresh.
    apply NoDup_cons_iff in Hnd as [Hk0 Hnd].
    destruct (s0 (path ++ [Key k0])%list (get k0 data)) as [r0|e] eqn:E0;
      [|discriminate].
    assert (Hk0f : lookup k0 fields = None) by (apply Hfresh; now left).
    eapply IH in H; [|assumption|assumption|].
    + destruct H as (Hm & fields' & Hval & Hkeep & Hnone & Hrest).
      apply merge_status_valid in Hm as [-> Hr0].
      split; [reflexivity|]. exists fields'. split; [assumption|].
      split; [|split].
      * intros k v Hl. apply Hkeep.
        destruct (negb (is_undefined (value r0)) || has_key k0 data);
          [|assumption].
        rewrite lookup_app. now rewrite Hl.
      * intros k Hl Hnot. apply Hnone.
        -- destruct (negb (is_undefined (value r0)) || has_key k0 data);
             [|assumption].
           rewrite lookup_app, Hl.
           destruct (k =? k0) eqn:Ek; [|reflexivity].
           apply String.eqb_eq in Ek. exfalso. apply Hnot. now left.
        -- intros Hin. apply Hnot. now right.
      * intros k schema [Heq | Hin].
        -- injection Heq as <- <-. exists r0. repeat split; try assumption.
           cbn [get].
           destruct (negb (is_undefined (value r0)) || has_key k0 data) eqn:Eadd.
           ++ rewrite (Hkeep k0 (value r0)); [reflexivity|].
              rewrite lookup_app, Hk0f. now rewrite String.eqb_refl.
           ++ apply orb_false_iff in Eadd as [Eu _].
              apply negb_false_iff, is_undefined_true in Eu.
              rewrite (Hnone k0 Hk0f Hk0). now rewrite Eu.
        -- now apply Hrest.
    + intros k Hin.
      destruct (negb (is_undefined (value r0)) || has_key k0 data);
        [|apply Hfresh; now right].
      rewrite lookup_app, (Hfresh k (or_intror Hin)).
      destruct (k =? k0) eqn:Ek; [|reflexivity].
      apply String.eqb_eq in Ek. subst. contradiction.
Qed.

Lemma z_object_valid (path : Path) (data : Value) (shape : list (string * Schema))
  (r : ParseReturn) :
  NoDup (map fst shape) ->
  z_object shape path data = Return r ->
  status r = valid ->
  exists fields,
    value r = VObj fields /\
    (forall k, ~ In k (map fst shape) -> lookup k fields = None) /\
    (forall k schema, In (k, schema) shape ->
       exists rk, schema (path ++ [Key k])%list (get k data) = Return rk /\
                  status rk = valid /\ get k (VObj fields) = value rk).
Proof.
  intros Hnd H Hv. unfold z_object in H.
  destruct data; try (injection H as <-; discriminate).
  destruct (object_pairs_valid _ _ _ Hnd _ _ _ _ H Hv (fun _ _ => eq_refl))
    as (_ & fields' & Hval & _ & Hnone & Hfields).
  exists fields'. repeat split; auto.
Qed.

Lemma parse_refine_valid (schema : Schema) (check : Value -> bool)
  (at_path : Path) (message : option string) (data v : Value) :
  parse (refine schema check at_path message) data = Return v ->
  exists r, schema [] data = Return r /\ status r = valid /\ value r = v
            /\ check v = true.
Proof.
  unfold parse, safeParse, refine.
  destruct (schema [] data) as [r|e]; [|discriminate].
  destruct (status r) eqn:Es; cbn.
  - destruct (check (value r)) eqn:Ec; cbn.
    + rewrite Es. intros H. injection H as <-. now exists r.
    + destruct (issues r); discriminate.
  - destruct (check (value r)) eqn:Ec; cbn.
    + rewrite Es. destruct (issues r); discriminate.
    + destruct (issues r); discriminate.
  - rewrite Es. destruct (issues r); discriminate.
Qed.

Ltac nodup_strings :=
  repeat (apply NoDup_cons;
          [ let H := fresh in
            cbn; intros H;
            repeat (destruct H as [H|H]; [discriminate H|]); exact H
          | ]);
  apply NoDup_nil.

Lemma is_num_2_not_1 (v : Value) : is_num 2 v = true -> is_num 1 v = false.
Proof.
  destruct v; try discriminate. unfold is_num, num, strict_eq. intros H.
  apply Qeq_bool_iff in H.
  destruct (Qeq_bool q (inject_Z 1)) eqn:E; [|reflexivity].
  apply Qeq_bool_iff in E. rewrite H in E. discriminate E.
Qed.

Lemma literal_union_value (a b : Value) (path : Path) (v : Value) (r : ParseReturn) :
  z_union [z_literal a; z_literal b] path v = Return r ->
  status r = valid -> value r = v.
Proof.
  unfold z_union, union_loop, z_literal.
  destruct (strict_eq v a); cbn.
  - intros H _. now injection H as <-.
  - destruct (strict_eq v b); cbn.
    + intros H _. now injection H as <-.
    + intros H. now injection H as <-.
Qed.

Lemma z_string_valid (path : Path) (v : Value) (r : ParseReturn) :
  z_string [] path v = Return r -> status r = valid ->
  exists s, v = VStr s /\ value r = VStr s.
Proof.
  unfold z_string. destruct v; cbn; intros H; injection H as <-;
    try discriminate.
  intros _. now exists s.
Qed.

Lemma transform_valid (schema : Schema) (f : Value -> Outcome Value)
  (path : Path) (v : Value) (r : ParseReturn) :
  transform schema f path v = Return r -> status r = valid ->
  exists r0, schema path v = Return r0 /\ status r0 = valid
             /\ f (value r0) = Return (value r).
Proof.
  unfold transform. destruct (schema path v) as [r0|e]; [|discriminate].
  destruct (status r0) eqn:Es.
  - destruct (f (value r0)) as [v'|e] eqn:Ef; [|discriminate].
    intros H _. injection H as <-. now exists r0.
  - intros H Hv. injection H as <-. congruence.
  - intros H Hv. injection H as <-. congruence.
Qed.

Lemma parse_candlesticks_valid (args v : Value) :
  parse QuoteHistoryCandlesticksSchema args = Return v ->
  query_type_refinement v = true /\
  forall k schema,
    In (k, schema) QuoteHistoryCandlesticksShape ->
    exists rk, schema [Key k] (get k args) = Return rk /\ status rk = valid
               /\ get k v = value rk.
Proof.
  intros H. apply parse_refine_valid in H as (r & Hr & Hv & <- & Hc).
  split; [assumption|].
  apply z_object_valid in Hr as (fields & -> & _ & Hf); [|nodup_strings|assumption].
  exact Hf.
Qed.

Lemma date_request_decoded (path : Path) (x : Value) (r : ParseReturn) :
  transform date_request_object date_request_transform path x = Return r ->
  status r = valid ->
  exists s1 s2 d1 d2,
    get "start_date" x = VStr s1 /\ get "end_date" x = VStr s2 /\
    parseNaiveDate s1 = Return d1 /\ parseNaiveDate s2 = Return d2 /\
    value r = VObj [("start", VNaiveDate d1); ("end", VNaiveDate d2)].
Proof.
  intros H Hv.
  apply transform_valid in H as (r0 & H0 & Hv0 & Hf); [|assumption].
  apply z_object_valid in H0 as (fields & Hval & _ & Hfields);
    [|nodup_strings|assumption].
  destruct (Hfields "start_date" (z_string [])) as (r1 & H1 & Hv1 & Hg1);
    [now left|].
  destruct (Hfields "end_date" (z_string [])) as (r2 & H2 & Hv2 & Hg2);
    [right; now left|].
  apply z_string_valid in H1 as (s1 & Hs1 & Hr1); [|assumption].
  apply z_string_valid in H2 as (s2 & Hs2 & Hr2); [|assumption].
  rewrite Hval in Hf. unfold date_request_transform in Hf.
  rewrite Hg1, Hr1, Hg2, Hr2 in Hf. cbn [on_string bind_outcome] in Hf.
  destruct (parseNaiveDate s1) as [d1|e1] eqn:E1; [|discriminate]. cbn in Hf.
  destruct (parseNaiveDate s2) as [d2|e2] eqn:E2; [|discriminate]. cbn in Hf.
  injection Hf as Hf.
  exists s1, s2, d1, d2. repeat split; congruence.
Qed.

(** C7. When [query_type] is 2 and [date_request] is absent, validation
    fails, whatever else the arguments hold, an [offset_request] included.
    When [date_request] is present in arguments that validate, it has both
    [start_date] and [end_date], and the validated request holds the two
    dates that [parseNaiveDate] reads from them. *)
Theorem date_request_required :
  (forall args,
      is_num 2 (get "query_type" args) = true ->
      get "date_request" args = VUndefined ->
      exists e, parse QuoteHistoryCandlesticksSchema args = Throw e)
  /\ (forall args v,
         parse QuoteHistoryCandlesticksSchema args = Return v ->
         get "date_request" args <> VUndefined ->
         exists s1 s2 d1 d2,
           get "start_date" (get "date_request" args) = VStr s1 /\
           get "end_date" (get "date_request" args) = VStr s2 /\
           parseNaiveDate s1 = Return d1 /\ parseNaiveDate s2 = Return d2 /\
           get "date_request" v
           = VObj [("start", VNaiveDate d1); ("end", VNaiveDate d2)]).
Proof.
  split.
  - intros args Hq Hd.
    destruct (parse QuoteHistoryCandlesticksSchema args) as [v|e] eqn:E;
      [exfalso | now exists e].
    apply parse_candlesticks_valid in E as [Hc Hf].
    destruct (Hf "query_type" _ ltac:(do 3 right; left; reflexivity))
      as (rq & Hrq & Hvq & Hgq).
    destruct (Hf "date_request" _ ltac:(do 4 right; left; reflexivity))
      as (rd & Hrd & Hvd & Hgd).
    apply literal_union_value in Hrq; [|assumption].
    rewrite Hd in Hrd. cbn in Hrd. injection Hrd as <-. cbn in Hgd.
    unfold query_type_refinement in Hc.
    rewrite Hgq, Hrq, Hgd, Hq, (is_num_2_not_1 _ Hq) in Hc.
    discriminate Hc.
  - intros args v E Hd.
    apply parse_candlesticks_valid in E as [_ Hf].
    destruct (Hf "date_request" _ ltac:(do 4 right; left; reflexivity))
      as (rd & Hrd & Hvd & Hgd).
    rewrite Hgd. unfold optional in Hrd.
    destruct (get "date_request" args) eqn:Eg; try contradiction;
      now apply date_request_decoded in Hrd.
Qed.

Lemma offset_request_in_shape :
  In ("offset_request",
      transform (optional offset_request_object) offset_request_transform)
    QuoteHistoryCandlesticksShape.
Proof. do 5 right. left. reflexivity. Qed.

(** C10. In every validated candlestick request [offset_request] is an
    object with the keys [forward], [datetime] and [count].  When the
    arguments leave [offset_request] out, it is
    [{forward: false, datetime: undefined, count: undefined}], and, with
    [query_type] 1, the handler that has obtained the quote context calls
    [historyCandlesticksByOffset] with [forward] false, no [datetime] and
    [count] 10. *)
Theorem offset_request_always_defined :
  (forall args v,
      parse QuoteHistoryCandlesticksSchema args = Return v ->
      exists forward datetime count,
        get "offset_request" v
        = VObj [("forward", VBool forward); ("datetime", datetime);
                ("count", count)])
  /\ (forall args v,
         parse QuoteHistoryCandlesticksSchema args = Return v ->
         get "offset_request" args = VUndefined ->
         get "offset_request" v
         = VObj [("forward", VBool false); ("datetime", VUndefined);
                 ("count", VUndefined)])
  /\ (forall args v this log context this' log',
         parse QuoteHistoryCandlesticksSchema args = Return v ->
         get "offset_request" args = VUndefined ->
         is_num 1 (get "query_type" v) = true ->
         getQuoteContext this log = (Return context, this', log') ->
         let offset_query :=
           [get "symbol" v; get "period" v; get "adjust_type" v;
            VBool false; VUndefined; num 10] in
         snd (quoteHistoryCandlesticks args this log)
         = method_called context "historyCandlesticksByOffset" offset_query
             (respond world context "historyCandlesticksByOffset" offset_query log')
           :: log').
Proof.
  assert (field : forall args v,
             parse QuoteHistoryCandlesticksSchema args = Return v ->
             exists r0,
               get "offset_request" v
               = VObj [("forward",
                        VBool (strict_eq (opt_get "direction" (value r0)) (num 1)));
                       ("datetime",
                        match get "offset_request" v with
                        | VObj [_; (_, d); _] => d
                        | _ => VUndefined
                        end);
                       ("count", opt_get "count" (value r0))]
               /\ (get "offset_request" args = VUndefined ->
                   value r0 = VUndefined
                   /\ get "offset_request" v
                      = VObj [("forward", VBool false); ("datetime", VUndefined);
                              ("count", VUndefined)])).
  { intros args v E.
    apply parse_candlesticks_valid in E as [_ Hf].
    destruct (Hf _ _ offset_request_in_shape) as (ro & Hro & Hvo & Hgo).
    apply transform_valid in Hro as (r0 & H0 & Hv0 & Ht); [|assumption].
    exists r0. rewrite Hgo. split.
    - unfold offset_request_transform in Ht.
      destruct (truthy (opt_get "date" (value r0))).
      + destruct (on_string _ _) as [dt|e]; [|discriminate].
        cbn in Ht. injection Ht as <-. reflexivity.
      + cbn in Ht. injection Ht as <-. reflexivity.
    - intros Hu. rewrite Hu in H0. cbn in H0. injection H0 as <-.
      split; [reflexivity|]. cbn in Ht. now injection Ht as <-. }
  split; [|split].
  - intros args v E. destruct (field args v E) as (r0 & -> & _). eauto.
  - intros args v E Hu. destruct (field args v E) as (r0 & _ & H).
    now apply H.
  - intros args v this log context this' log' E Hu Hq Hctx.
    destruct (field args v E) as (r0 & _ & H). destruct (H Hu) as [_ Ho].
    cbv zeta.
    unfold quoteHistoryCandlesticks, try_catch, quoteHistoryCandlesticks_try.
    unfold bind at 1. unfold lift at 1. rewrite E.
    unfold bind at 1. rewrite Hctx. rewrite Hq, Ho.
    unfold bind at 1. cbn [call opt_get get lookup String.eqb Ascii.eqb Bool.eqb
                            nullish_or].
    unfold bind, await, lift, ret.
    destruct (respond world context _ _ log'); reflexivity.
Qed.

(** ** The handlers *)

Lemma try_block_staged (tool : Tool.t) (args : Value) (this : LongBridge) (log : Log) :
  try_block tool args this log = staged tool args this log.
Proof.
  unfold staged.
  destruct tool; cbn [try_block validated session request passed passing];
    match goal with
    | |- ?f args this log = _ => unfold f
    end;
    unfold bind at 1; unfold lift at 1;
    try (destruct (parse _ args) as [params|e]; [|reflexivity]);
    unfold bind at 1;
    match goal with
    | |- context [getQuoteContext this log] =>
        destruct (getQuoteContext this log) as [[[context|e] this'] log']
    | |- context [getTradeContext this log] =>
        destruct (getTradeContext this log) as [[[context|e] this'] log']
    end; try reflexivity;
    try (destruct (is_num 1 (get "query_type" params)));
    unfold bind at 1; unfold call at 1;
    unfold bind at 1; unfold await, lift;
    match goal with
    | |- context [respond world ?c ?m ?a ?l] =>
        destruct (respond world c m a l) as [answer|e]
    end; try reflexivity;
    unfold bind, ret;
    match goal with
    | |- context [spread ?x] => destruct (spread x); reflexivity
    | _ => reflexivity
    end.
Qed.


Lemma handler_dispatch (tool : Tool.t) (args : Value) (log : Log) :
  CallToolRequest_handler (Tool.value tool) args log
  = let '(result, _, log') :=
      try_catch (try_block tool args)
        (fun error => ret (handleErrorResult error)) new_LongBridge log in
    (result, log').
Proof. destruct tool; reflexivity. Qed.

Ltac some_tool :=
  first
    [ exists Tool.QuoteStaticInfo; reflexivity
    | exists Tool.QuoteRealtimeInfo; reflexivity
    | exists Tool.QuoteDepth; reflexivity
    | exists Tool.QuoteTrades; reflexivity
    | exists Tool.QuoteIntraday; reflexivity
    | exists Tool.QuoteHistoryCandlesticks; reflexivity
    | exists Tool.QuoteCapitalFlow; reflexivity
    | exists Tool.QuoteCapitalDistribution; reflexivity
    | exists Tool.QuoteCalcIndex; reflexivity
    | exists Tool.QuoteWatchList; reflexivity
    | exists Tool.TradeHistoryExecutions; reflexivity
    | exists Tool.TradeTodayExecutions; reflexivity
    | exists Tool.TradeAccountBalance; reflexivity
    | exists Tool.TradeStockPositions; reflexivity ].

Lemma registry_names (name : string) :
  In name (map fst TOOLS_CONFIG) <-> exists tool, name = Tool.value tool.
Proof.
  split.
  - cbn. intros H.
    repeat (destruct H as [<- | H]; [some_tool|]). destruct H.
  - intros [tool ->]. destruct tool; cbn; tauto.
Qed.

Lemma handleErrorResult_shape (e : Fault) :
  isError (handleErrorResult e) = Some true
  /\ exists message, content (handleErrorResult e) = [mkBlock "text" message].
Proof. split; [reflexivity|]. unfold handleErrorResult. cbn. eauto. Qed.

Lemma handler_run (tool : Tool.t) (args : Value) (log : Log) :
  CallToolRequest_handler (Tool.value tool) args log
  = match staged tool args new_LongBridge log with
    | (Return result, _, log') => (Return result, log')
    | (Throw e, _, log') => (Return (handleErrorResult e), log')
    end.
Proof.
  rewrite handler_dispatch. unfold try_catch. rewrite try_block_staged.
  destruct (staged tool args new_LongBridge log) as [[[result|e] this'] log'];
    reflexivity.
Qed.

Lemma staged_success (tool : Tool.t) (args : Value) (this this' : LongBridge)
  (log log' : Log) (result : ServerResult) :
  staged tool args this log = (Return result, this', log') ->
  exists params context log0 answer items,
    validated tool args = Return params /\
    session tool this log = (Return context, this', log0) /\
    respond world context (fst (request tool params))
      (snd (request tool params)) log0 = Return answer /\
    log' = method_called context (fst (request tool params))
             (snd (request tool params)) (Return answer) :: log0 /\
    passed tool answer = Return items /\
    result = handleSuccessResult items.
Proof.
  unfold staged.
  destruct (validated tool args) as [params|e]; [|discriminate].
  destruct (session tool this log) as [[[context|e] this0] log0]; [|discriminate].
  destruct (request tool params) as [method margs] eqn:Erq.
  destruct (respond world context method margs log0) as [answer|e] eqn:Er;
    [|discriminate].
  destruct (passed tool answer) as [items|e] eqn:Ep; [|discriminate].
  intros H. injection H as <- <- <-.
  exists params, context, log0, answer, items. rewrite Erq. cbn [fst snd].
  repeat split; try reflexivity; assumption.
Qed.

Lemma staged_fault (tool : Tool.t) (args : Value) (this : LongBridge) (log : Log)
  (e : Fault) :
  faults_with tool args this log e ->
  exists this' log', staged tool args this log = (Throw e, this', log').
Proof.
  unfold staged. intros [Hv | params this' log' Hv Hs
                         | params context this' log' Hv Hs Hr
                         | params context this' log' answer Hv Hs Hr Hp];
    rewrite Hv; [eauto | rewrite Hs; eauto | |];
    rewrite Hs; destruct (request tool params) as [method margs];
    cbn [fst snd] in Hr; rewrite Hr; [eauto|]. rewrite Hp. eauto.
Qed.

(** C2. The handler of every registered tool returns an envelope: a
    success envelope, or an envelope with [isError] true and exactly one
    text block.  A fault thrown during validation, session construction,
    the backend call or the building of the result is returned as the
    error envelope of that fault. *)
Theorem faults_are_contained :
  (forall name args log,
      In name (map fst TOOLS_CONFIG) ->
      exists result log',
        CallToolRequest_handler name args log = (Return result, log') /\
        (isError result = None \/
         isError result = Some true /\
         exists message, content result = [mkBlock "text" message]))
  /\ (forall tool args log e,
         faults_with tool args new_LongBridge log e ->
         exists message log',
           CallToolRequest_handler (Tool.value tool) args log
           = (Return (mkResult [mkBlock "text" message] (Some true)), log')
           /\ handleErrorResult e = mkResult [mkBlock "text" message] (Some true)).
Proof.
  split.
  - intros name args log Hin. apply registry_names in Hin as [tool ->].
    rewrite handler_run.
    destruct (staged tool args new_LongBridge log) as [[[result|e] this'] log'] eqn:E.
    + exists result, log'. split; [reflexivity|]. left.
      apply staged_success in E as (? & ? & ? & ? & items & _ & _ & _ & _ & _ & ->).
      reflexivity.
    + exists (handleErrorResult e), log'. split; [reflexivity|]. right.
      apply handleErrorResult_shape.
  - intros tool args log e H.
    apply staged_fault in H as (this' & log' & H).
    rewrite handler_run, H.
    destruct (handleErrorResult_shape e) as [_ [message Hm]].
    exists message, log'. unfold handleErrorResult in *. cbn in Hm.
    injection Hm as <-. split; reflexivity.
Qed.


Lemma existsb_eqb_false (name : string) (names : list string) :
  ~ In name names -> existsb (String.eqb name) names = false.
Proof.
  intros H. destruct (existsb (String.eqb name) names) eqn:E; [|reflexivity].
  apply existsb_exists in E as (x & Hx & Ex).
  apply String.eqb_eq in Ex. subst. contradiction.
Qed.

(** C9. A name outside the registry is answered, not thrown: the handler
    returns the error envelope that [handleErrorResult] builds for the
    [ZodError] of the name, as it does for a validation failure, with
    [isError] true and one text block, whose message ends with the name
    received. *)
Theorem unknown_tool_is_reported (name : string) (args : Value) (log : Log) :
  ~ In name (map fst TOOLS_CONFIG) ->
  let message :=
    "Invalid enum value. Expected " ++ joinValues (map Tool.value Tool.members)
    ++ ", received '" ++ name ++ "'" in
  CallToolRequest_handler name args log
  = (Return (mkResult [mkBlock "text" ("Validation error: " ++ message)]
               (Some true)), log)
  /\ handleErrorResult (ZodError [mkIssue invalid_enum_value [] message []])
     = mkResult [mkBlock "text" ("Validation error: " ++ message)] (Some true).
Proof.
  intros H. apply existsb_eqb_false in H.
  change (map fst TOOLS_CONFIG) with (map Tool.value Tool.members) in H.
  unfold CallToolRequest_handler, safeParse, ToolNameSchema, z_nativeEnum.
  rewrite H. split; reflexivity.
Qed.

Lemma map_one_block_per_element (items : list Value) :
  one_block_per_element items (handleSuccessResult items).
Proof.
  unfold one_block_per_element, handleSuccessResult. cbn [content]. split.
  - apply length_map.
  - intros i item H. fold serialized.
    rewrite nth_error_map, H. reflexivity.
Qed.

(** C8, as amended.  When a handler returns a success envelope, the backend
    has answered its call.  A handler that spreads the answer into
    [handleSuccessResult] returns, for an answer of n elements, n blocks, the
    i-th holding the serialization of the i-th element; [tradeStockPositions]
    does so with the [channels] of the answer.  Every other handler returns
    one block, the serialization of the whole answer. *)
Theorem one_block_per_passed_item (tool : Tool.t) (args : Value) (log log' : Log)
  (result : ServerResult) :
  CallToolRequest_handler (Tool.value tool) args log = (Return result, log') ->
  isError result = None ->
  exists context method margs answer rest,
    log' = method_called context method margs (Return answer) :: rest /\
    match passing tool with
    | spread_answer =>
        forall items, answer = VArr items -> one_block_per_element items result
    | spread_channels =>
        forall items, get "channels" answer = VArr items ->
                      one_block_per_element items result
    | whole_answer => content result = [serialized answer]
    end.
Proof.
  rewrite handler_run.
  destruct (staged tool args new_LongBridge log) as [[[r|e] this'] log0] eqn:E;
    intros H; injection H as <- <-; [|discriminate].
  intros _.
  apply staged_success in E
    as (params & context & log1 & answer & items & _ & _ & _ & -> & Hp & ->).
  exists context, (fst (request tool params)), (snd (request tool params)),
    answer, log1.
  split; [reflexivity|]. unfold passed in Hp.
  destruct (passing tool).
  - intros items' ->. cbn in Hp. injection Hp as <-.
    apply map_one_block_per_element.
  - intros items' Hc. rewrite Hc in Hp. cbn in Hp. injection Hp as <-.
    apply map_one_block_per_element.
  - injection Hp as <-. reflexivity.
Qed.


(** ** The candlestick schema on a request by offset *)

Lemma strict_eq_num_refl (z : Z) : strict_eq (num z) (num z) = true.
Proof. unfold strict_eq, num. apply Qeq_bool_iff. reflexivity. Qed.

Lemma literal_union_member {A : Type} (code : A -> Z) (members : list A) (a : A)
  (path : Path) :
  In a members ->
  forall first_dirty errors,
    union_loop (map (fun m => z_literal (num (code m))) members) path
      (num (code a)) first_dirty errors
    = Return (mkParse valid (num (code a)) []).
Proof.
  induction members as [|m members IH]; intros Hin first_dirty errors.
  - destruct Hin.
  - cbn [map union_loop]. unfold z_literal at 1.
    destruct (strict_eq (num (code a)) (num (code m))) eqn:E.
    + reflexivity.
    + destruct Hin as [-> | Hin].
      * now rewrite strict_eq_num_refl in E.
      * cbn [INVALID status issues]. destruct first_dirty; now apply IH.
Qed.

Lemma object_pairs_step (k : string) (schema : Schema)
  (rest : list (string * Schema)) (path : Path) (data : Value) (st : Status)
  (fields : list (string * Value)) (iss : list ZodIssue) (r : ParseReturn) :
  schema (path ++ [Key k])%list (get k data) = Return r ->
  object_pairs ((k, schema) :: rest) path data st fields iss
  = object_pairs rest path data (merge_status st (status r))
      (if negb (is_undefined (value r)) || has_key k data
       then (fields ++ [(k, value r)])%list else fields)
      (iss ++ issues r)%list.
Proof. intros H. cbn [object_pairs]. now rewrite H. Qed.

Lemma Period_listed_all (p : Period.t) : In p Period.listed.
Proof. destruct p; cbn; tauto. Qed.

Lemma AdjustType_listed_all (a : AdjustType.t) : In a AdjustType.listed.
Proof. destruct a; cbn; tauto. Qed.

(** C1, on the code.  With [query_type] 1 and no [offset_request], the
    arguments validate: the transform has already put an object in place of
    the absent [offset_request] when the refinement looks at it. *)
Theorem offset_request_not_required (p : Period.t) (a : AdjustType.t) :
  let args :=
    VObj [("symbol", VStr "AAPL.US"); ("period", num (Period_value p));
          ("adjust_type", num (AdjustType_value a)); ("query_type", num 1)] in
  get "offset_request" args = VUndefined /\
  is_num 1 (get "query_type" args) = true /\
  parse QuoteHistoryCandlesticksSchema args
  = Return
      (VObj [("symbol", VStr "AAPL.US"); ("period", num (Period_value p));
             ("adjust_type", num (AdjustType_value a)); ("query_type", num 1);
             ("offset_request",
              VObj [("forward", VBool false); ("datetime", VUndefined);
                    ("count", VUndefined)])]).
Proof.
  cbv zeta. split; [reflexivity|]. split; [reflexivity|].
  assert (Hp : forall path,
             z_union (map (fun m => z_literal (num (Period_value m))) Period.listed)
               path (num (Period_value p))
             = Return (mkParse valid (num (Period_value p)) [])).
  { intros path. apply literal_union_member, Period_listed_all. }
  assert (Ha : forall path,
             z_union (map (fun m => z_literal (num (AdjustType_value m)))
                        AdjustType.listed)
               path (num (AdjustType_value a))
             = Return (mkParse valid (num (AdjustType_value a)) [])).
  { intros path. apply literal_union_member, AdjustType_listed_all. }
  unfold parse, safeParse, QuoteHistoryCandlesticksSchema, refine, z_object,
    QuoteHistoryCandlesticksShape.
  revert Hp Ha.
  generalize (z_union (map (fun m => z_literal (num (Period_value m))) Period.listed)).
  generalize (z_union (map (fun m => z_literal (num (AdjustType_value m)))
                         AdjustType.listed)).
  intros Sa Sp Hp Ha.
  rewrite (object_pairs_step "symbol" _ _ _ _ _ _ _ (mkParse valid (VStr "AAPL.US") []))
    by reflexivity.
  erewrite object_pairs_step by apply Hp.
  erewrite object_pairs_step by apply Ha.
  reflexivity.
Qed.


(** ** Sessions *)

Lemma getQuoteContext_new (log : Log) :
  never_fails ->
  let config := mkConfig (length log) in
  let context := mkContext QuoteContext (S (length log)) config in
  getQuoteContext new_LongBridge log
  = (Return context, mkLongBridge (Some config) None (Some context),
     Context_new_called QuoteContext config (Return context)
       :: Config_fromEnv_called (Return config) :: log).
Proof.
  intros [Henv Hconnect]. cbv zeta.
  unfold getQuoteContext, getQuoteContext_start, getQuoteContext_resume, config,
    Config_fromEnv, Context_new, bind, read, write, ret, await, lift, new_LongBridge.
  cbn. rewrite Henv, Hconnect. reflexivity.
Qed.

Lemma quote_depth_log (log : Log) :
  never_fails ->
  let config := mkConfig (length log) in
  let context := mkContext QuoteContext (S (length log)) config in
  snd (CallToolRequest_handler "quote-depth" (VObj [("symbol", VStr "AAPL.US")]) log)
  = method_called context "depth" [VStr "AAPL.US"]
      (respond world context "depth" [VStr "AAPL.US"]
         (Context_new_called QuoteContext config (Return context)
            :: Config_fromEnv_called (Return config) :: log))
      :: Context_new_called QuoteContext config (Return context)
      :: Config_fromEnv_called (Return config) :: log.
Proof.
  intros H. cbv zeta.
  change "quote-depth" with (Tool.value Tool.QuoteDepth).
  rewrite handler_run. unfold staged.
  change (validated Tool.QuoteDepth (VObj [("symbol", VStr "AAPL.US")]))
    with (Return (VObj [("symbol", VStr "AAPL.US")])).
  cbn [session request passed passing].
  rewrite (getQuoteContext_new log H). cbv zeta.
  change (get "symbol" (VObj [("symbol", VStr "AAPL.US")])) with (VStr "AAPL.US").
  destruct (respond world _ "depth" _ _); reflexivity.
Qed.

Lemma serve_two (first second : string * Value) (log : Log) :
  snd (serve [first; second] log)
  = snd (CallToolRequest_handler (fst second) (snd second)
           (snd (CallToolRequest_handler (fst first) (snd first) log))).
Proof.
  destruct first as [n1 a1], second as [n2 a2]. cbn [serve fst snd].
  destruct (CallToolRequest_handler n1 a1 log) as [r1 l1]. cbn [snd].
  destruct (CallToolRequest_handler n2 a2 l1) as [r2 l2]. reflexivity.
Qed.

(** C3, on the code.  Where nothing fails, two requests for [quote-depth],
    one after the other, each load the configuration and each construct a
    quote context, and the two calls of [depth] go to different contexts. *)
Theorem session_constructed_per_request (log : Log) :
  never_fails ->
  let request := ("quote-depth", VObj [("symbol", VStr "AAPL.US")]) in
  let log' := snd (serve [request; request] log) in
  config_loads log' = (config_loads log + 2)%nat /\
  constructions QuoteContext log' = (constructions QuoteContext log + 2)%nat /\
  exists first second,
    contexts_used log' = (contexts_used log ++ [first; second])%list
    /\ first <> second.
Proof.
  intros H. cbv zeta. rewrite serve_two. cbn [fst snd].
  rewrite (quote_depth_log log H). cbv zeta.
  set (log1 := method_called _ _ _ _ :: _).
  rewrite (quote_depth_log log1 H). cbv zeta. subst log1.
  unfold config_loads, constructions, contexts_used.
  cbn [filter flat_map length SessionKind_eqb app rev].
  rewrite <- app_assoc. cbn [app].
  repeat split; try lia.
  eexists; eexists. split; [reflexivity|].
  intros E. injection E as E _. lia.
Qed.

(** C4, on the code.  Where nothing fails, two calls of [getQuoteContext]
    on an instance that has no quote context yet, the second entered while
    the first is at its [await], construct two contexts, and the callers
    receive different ones.  So do the calls of two requests in flight
    together, each on its own instance. *)
Theorem concurrent_first_calls_construct_twice (this : LongBridge) (log : Log) :
  never_fails ->
  quoteContext this = None ->
  (exists first second this' log',
      two_getQuoteContext this log = (Return (first, second), this', log') /\
      first <> second /\
      constructions QuoteContext log' = (constructions QuoteContext log + 2)%nat)
  /\ (exists first second log',
         two_requests_getQuoteContext log = (Return first, Return second, log') /\
         first <> second /\
         constructions QuoteContext log'
         = (constructions QuoteContext log + 2)%nat).
Proof.
  intros [Henv Hconnect] Hnone. split.
  - destruct this as [cfg tc qc]. cbn [quoteContext] in Hnone. subst qc.
    unfold two_getQuoteContext, getQuoteContext_start, getQuoteContext_resume,
      config, Config_fromEnv, Context_new, bind, read, write, ret, await, lift.
    destruct cfg as [c|]; cbn.
    + rewrite !Hconnect. cbn.
      do 4 eexists. split; [reflexivity|]. split.
      * intros E. injection E as E. lia.
      * unfold constructions. cbn. lia.
    + rewrite Henv. cbn. rewrite !Hconnect. cbn.
      do 4 eexists. split; [reflexivity|]. split.
      * intros E. injection E as E. lia.
      * unfold constructions. cbn. lia.
  - unfold two_requests_getQuoteContext, getQuoteContext_start,
      getQuoteContext_resume, config, Config_fromEnv, Context_new, bind, read,
      write, ret, await, lift, new_LongBridge.
    cbn. rewrite Henv. cbn. rewrite Hconnect. cbn. rewrite Henv. cbn.
    rewrite Hconnect. cbn.
    do 3 eexists. split; [reflexivity|]. split.
    + intros E. injection E as E. lia.
    + unfold constructions. cbn. lia.
Qed.

(** * Further properties *)

(** ** utils.ts *)

Lemma decimal_2 (a b : nat) : decimal [a; b] = (10 * Z.of_nat a + Z.of_nat b)%Z.
Proof. unfold decimal. cbn [fold_left]. lia. Qed.

Lemma decimal_4 (a b c d : nat) :
  decimal [a; b; c; d]
  = (1000 * Z.of_nat a + 100 * Z.of_nat b + 10 * Z.of_nat c + Z.of_nat d)%Z.
Proof. unfold decimal. cbn [fold_left]. lia. Qed.

Ltac digits_lt_10 :=
  repeat match goal with
         | H : are_digits _ |- _ => unfold are_digits in H
         | H : Forall _ (_ :: _) |- _ => inversion H; clear H; subst
         | H : Forall _ [] |- _ => clear H
         end.

(** X1. [parseNaiveDate] is injective: two strings that give the same date
    are the same string.  The year it returns is between 0 and 9999. *)
Theorem parseNaiveDate_injective (s1 s2 : string) (d : NaiveDate) :
  parseNaiveDate s1 = Return d ->
  parseNaiveDate s2 = Return d ->
  s1 = s2 /\ (0 <= year d <= 9999)%Z.
Proof.
  intros H1 H2.
  assert (R1 : re_date s1 = true)
    by (unfold parseNaiveDate in H1; destruct (re_date s1); [reflexivity|discriminate]).
  assert (R2 : re_date s2 = true)
    by (unfold parseNaiveDate in H2; destruct (re_date s2); [reflexivity|discriminate]).
  apply re_date_digits in R1 as (l1 & L1 & D1 & ->).
  apply re_date_digits in R2 as (l2 & L2 & D2 & ->).
  list_of_length.
  rewrite (parseNaiveDate_digits _ _ _ _ _ _ _ _ D1) in H1.
  rewrite (parseNaiveDate_digits _ _ _ _ _ _ _ _ D2) in H2.
  destruct (date_out_of_range _ _); [discriminate|].
  destruct (date_out_of_range _ _); [discriminate|].
  apply new_NaiveDate_returns in H1 as (_ & _ & ->).
  apply new_NaiveDate_returns in H2 as (_ & _ & H2).
  injection H2 as Ey Em Ed. cbn [year].
  rewrite !decimal_4 in *. rewrite !decimal_2 in *.
  digits_lt_10.
  split; [|lia].
  repeat f_equal; lia.
Qed.

Lemma all_digits_app (s t : string) :
  all_digits (s ++ t) = all_digits s && all_digits t.
Proof.
  unfold all_digits. induction s as [|c s IH]; [reflexivity|].
  cbn [append list_ascii_of_string forallb]. rewrite IH. apply andb_assoc.
Qed.

Lemma length_app_string (s t : string) :
  String.length (s ++ t) = (String.length s + String.length t)%nat.
Proof. induction s as [|c s IH]; [reflexivity|]. cbn. now rewrite IH. Qed.

(** X2. [parseTime] reads HHMM as HHMM00: a string of four characters and
    the same string followed by 00 give the same result, a time or an
    error of the same kind, so [parseTime] is not injective. *)
Theorem parseTime_seconds_default (s : string) :
  String.length s = 4%nat ->
  match parseTime s, parseTime (s ++ "00") with
  | Return t, Return t' => t = t'
  | Throw e, Throw e' => e = e'
  | _, _ => False
  end.
Proof.
  intros Hlen.
  destruct (all_digits s) eqn:Hd.
  - apply all_digits_string in Hd as (ds & Hds & -> & Hl).
    rewrite Hlen in Hl. list_of_length.
    match goal with
    | Hds : are_digits [?a; ?b; ?c; ?d] |- _ =>
        change (digits_string [a; b; c; d] ++ "00")
          with (digits_string [a; b; c; d; 0; 0]%nat);
        assert (Hds6 : are_digits [a; b; c; d; 0; 0]%nat)
    end.
    { digits_lt_10. repeat (apply Forall_cons; [lia|]). apply Forall_nil. }
    rewrite (parseTime_digits4 _ _ _ _ Hds), (parseTime_digits6 _ _ _ _ _ _ Hds6).
    change (decimal [0; 0]%nat) with 0%Z.
    destruct (time_out_of_range _ _ _); reflexivity.
  - unfold parseTime, re_time. rewrite all_digits_app, Hd.
    rewrite !andb_false_r. reflexivity.
Qed.

(** X3. [parseNaiveDatetime] parses the date first, so an error of the date
    is the error reported whatever the time; an absent or empty time is
    midnight, the same as 0000; otherwise the time is what [parseTime]
    returns or throws. *)
Theorem parseNaiveDatetime_composes (dateStr : string) :
  parseNaiveDatetime dateStr None = parseNaiveDatetime dateStr (Some "0000")
  /\ parseNaiveDatetime dateStr (Some "") = parseNaiveDatetime dateStr (Some "0000")
  /\ (forall timeStr e,
         parseNaiveDate dateStr = Throw e ->
         parseNaiveDatetime dateStr timeStr = Throw e)
  /\ (forall timeStr d,
         parseNaiveDate dateStr = Return d ->
         timeStr <> "" ->
         parseNaiveDatetime dateStr (Some timeStr)
         = match parseTime timeStr with
           | Return t => Return (mkNaiveDatetime d t)
           | Throw e => Throw e
           end).
Proof.
  unfold parseNaiveDatetime. split; [|split; [|split]].
  - destruct (parseNaiveDate dateStr); reflexivity.
  - destruct (parseNaiveDate dateStr); reflexivity.
  - intros timeStr e ->. reflexivity.
  - intros timeStr d -> Hne. destruct timeStr; [contradiction|reflexivity].
Qed.


(** ** constants.ts *)

Lemma span_app (p : ascii -> bool) (a b : string) :
  forallb p (list_ascii_of_string a) = true ->
  match b with String c _ => p c = false | EmptyString => True end ->
  span p (a ++ b) = (a, b).
Proof.
  intros Ha Hb. induction a as [|c a IH].
  - cbn [append]. destruct b as [|c b]; [reflexivity|]. cbn [span]. now rewrite Hb.
  - cbn [list_ascii_of_string forallb] in Ha.
    apply andb_true_iff in Ha as [Hc Ha].
    cbn [append span]. rewrite Hc, (IH Ha). reflexivity.
Qed.

Lemma span_spec (p : ascii -> bool) (s a b : string) :
  span p s = (a, b) ->
  s = a ++ b /\ forallb p (list_ascii_of_string a) = true.
Proof.
  revert a b. induction s as [|c s IH]; intros a b H; cbn [span] in H.
  - injection H as <- <-. now split.
  - destruct (p c) eqn:Hc.
    + destruct (span p s) as [a' b']. injection H as <- <-.
      destruct (IH a' b' eq_refl) as [-> Ha]. split; [reflexivity|].
      cbn [list_ascii_of_string forallb]. now rewrite Hc.
    + injection H as <- <-. now split.
Qed.

(** X4. [SymbolSchema] accepts exactly the strings made of a non-empty run
    of capitals and digits, one dot, and a non-empty run of capitals; a
    value that is not a string, lower case, a missing region or a second
    dot are refused. *)
Theorem SymbolSchema_accepts (path : Path) (v : Value) :
  (SymbolSchema path v = OK v <->
   exists ticker region,
     v = VStr (ticker ++ "." ++ region) /\
     ticker <> "" /\ region <> "" /\
     forallb ticker_char (list_ascii_of_string ticker) = true /\
     forallb is_upper (list_ascii_of_string region) = true)
  /\ (SymbolSchema path v <> OK v ->
      exists issue, SymbolSchema path v
                    = Return (mkParse (match v with VStr _ => dirty | _ => aborted end)
                                (match v with VStr _ => v | _ => VUndefined end)
                                [issue])).
Proof.
  unfold SymbolSchema, z_string, OK, INVALID, run_string_checks.
  cbn [flat_map regex check_test check_message check_default or_default app].
  split.
  - split.
    + destruct v; try discriminate.
      destruct (re_symbol s) eqn:E; [intros _ | discriminate].
      unfold re_symbol in E. fold ticker_char in E.
      destruct (span ticker_char s) as [ticker rest] eqn:Es.
      apply span_spec in Es as [-> Ht].
      apply andb_true_iff in E as [Hne E].
      destruct rest as [|c region]; [discriminate|].
      destruct (Ascii.eqb_spec c ".") as [->|Hc].
      * apply andb_true_iff in E as [Hr Hu].
        exists ticker, region. repeat split; try assumption.
        -- intros ->. discriminate.
        -- intros ->. discriminate.
      * exfalso. destruct c as [[] [] [] [] [] [] [] []]; try discriminate E.
        now apply Hc.
    + intros (ticker & region & -> & Hne & Hr & Ht & Hu).
      unfold re_symbol. fold ticker_char.
      rewrite (span_app ticker_char ticker ("." ++ region) Ht eq_refl).
      cbn [append]. rewrite Hu.
      destruct ticker; [contradiction|]. destruct region; [contradiction|].
      reflexivity.
  - intros H. destruct v; try (eexists; reflexivity).
    destruct (re_symbol s); [contradiction|]. eexists. reflexivity.
Qed.


Lemma merge_status_valid_r (st : Status) : merge_status st valid = st.
Proof. destruct st; reflexivity. Qed.

Lemma SymbolSchema_valid (path : Path) (s : string) :
  re_symbol s = true -> SymbolSchema path (VStr s) = OK (VStr s).
Proof.
  intros H. unfold SymbolSchema, z_string, run_string_checks.
  cbn [flat_map regex check_test]. now rewrite H.
Qed.

Lemma array_of_symbols (path : Path) (symbols : list string) :
  Forall (fun s => re_symbol s = true) symbols ->
  forall i st out iss,
    array_items SymbolSchema path (map VStr symbols) i st out iss
    = Return (mkParse st
                (match st with
                 | aborted => VUndefined
                 | _ => VArr (out ++ map VStr symbols)
                 end) iss).
Proof.
  induction 1 as [|s symbols Hs _ IH]; intros i st out iss; cbn [map array_items].
  - now rewrite app_nil_r.
  - rewrite (SymbolSchema_valid _ s Hs). unfold OK. cbn [status value issues].
    rewrite IH, merge_status_valid_r, app_nil_r, <- app_assoc. reflexivity.
Qed.

(** X5. A list of well-formed symbols validates for [quote-static-info] and
    for [quote-realtime-info] exactly up to 500 of them, the empty list
    included, and is handed on unchanged; with more than 500 the only issue
    is the one of the bound, at [symbol]. *)
Theorem symbol_list_bound (symbols : list string) :
  Forall (fun s => re_symbol s = true) symbols ->
  let args := VObj [("symbol", VArr (map VStr symbols))] in
  let outcome :=
    if (length symbols <=? 500)%nat then Return args
    else Throw (ZodError
                  [mkIssue too_big [Key "symbol"]
                     "The maximum number of symbols in each request is 500" []]) in
  parse QuoteStaticInfoSchema args = outcome
  /\ parse QuoteRealtimeInfoSchema args = outcome.
Proof.
  intros H. cbv zeta.
  assert (E : forall schema,
             schema = z_object [("symbol", z_array SymbolSchema max_500)] ->
             parse schema (VObj [("symbol", VArr (map VStr symbols))])
             = if (length symbols <=? 500)%nat
               then Return (VObj [("symbol", VArr (map VStr symbols))])
               else Throw (ZodError
                             [mkIssue too_big [Key "symbol"]
                                "The maximum number of symbols in each request is 500"
                                []])).
  { intros schema ->.
    unfold parse, safeParse, z_object. cbn [object_pairs].
    change (get "symbol" (VObj [("symbol", VArr (map VStr symbols))]))
      with (VArr (map VStr symbols)).
    change (has_key "symbol" (VObj [("symbol", VArr (map VStr symbols))]))
      with true.
    unfold z_array, max_500. rewrite length_map.
    rewrite Nat.ltb_antisym.
    destruct (length symbols <=? 500)%nat; cbn [negb or_default];
      rewrite (array_of_symbols _ symbols H); reflexivity. }
  split; apply E; reflexivity.
Qed.


Lemma is_integer_spec (q : Q) :
  is_integer q = true <-> exists n : Z, q == inject_Z n.
Proof.
  unfold is_integer, Qeq, inject_Z. cbn [Qnum Qden]. rewrite Z.eqb_eq.
  rewrite Z.mod_divide by discriminate. unfold Z.divide.
  split; intros [n Hn]; exists n; lia.
Qed.

(** X6. For [quote-trades] a count validates exactly when it is a whole
    number from 1 to 1000, and it is handed on unchanged; there is no
    default, a request without count is refused as [Required]. *)
Theorem trades_count_bound (s : string) (q : Q) :
  re_symbol s = true ->
  let args := VObj [("symbol", VStr s); ("count", VNum q)] in
  (parse QuoteTradesSchema args = Return args <->
   (exists n : Z, q == inject_Z n) /\ 1 <= q /\ q <= 1000)
  /\ (forall e, parse QuoteTradesSchema args = Throw e ->
                exists iss, e = ZodError iss)
  /\ parse QuoteTradesSchema (VObj [("symbol", VStr s)])
     = Throw (ZodError [mkIssue invalid_type [Key "count"] "Required" []]).
Proof.
  intros Hs. cbv zeta.
  rewrite <- is_integer_spec, <- !Qle_bool_iff.
  unfold parse, safeParse, QuoteTradesSchema, z_object. cbn [object_pairs].
  change (get "symbol" (VObj [("symbol", VStr s); ("count", VNum q)]))
    with (VStr s).
  change (get "count" (VObj [("symbol", VStr s); ("count", VNum q)]))
    with (VNum q).
  change (get "symbol" (VObj [("symbol", VStr s)])) with (VStr s).
  change (get "count" (VObj [("symbol", VStr s)])) with VUndefined.
  rewrite !(SymbolSchema_valid _ s Hs). unfold OK, z_number.
  cbn [status value issues flat_map run_number_check app].
  change (inject_Z 1) with 1. change (inject_Z 1000) with 1000.
  destruct (is_integer q), (Qle_bool 1 q), (Qle_bool q 1000); cbn;
    (split; [split; [intros H; first [discriminate H | repeat split; reflexivity]
                    | intros (H1 & H2 & H3); try discriminate; reflexivity]
            | split; [intros e H; try discriminate H; injection H as <-;
                      eexists; reflexivity
                     | reflexivity]]).
Qed.


Lemma literal_union_matches (a b : Value) (path : Path) (v : Value) (r : ParseReturn) :
  z_union [z_literal a; z_literal b] path v = Return r ->
  status r = valid -> strict_eq v a || strict_eq v b = true.
Proof.
  unfold z_union, union_loop, z_literal.
  destruct (strict_eq v a); [reflexivity|]. cbn.
  destruct (strict_eq v b); [reflexivity|]. cbn.
  intros H. injection H as <-. discriminate.
Qed.

Lemma optional_string_valid (path : Path) (v : Value) (r : ParseReturn) :
  optional (z_string []) path v = Return r -> status r = valid ->
  value r = v /\ (v = VUndefined \/ exists s, v = VStr s).
Proof.
  unfold optional, z_string.
  destruct v; cbn; intros H; injection H as <-; try discriminate; intros _.
  - split; [reflexivity | now left].
  - split; [reflexivity | right; now exists s].
Qed.

Lemma count_valid (path : Path) (v : Value) (r : ParseReturn) :
  default (optional (z_number [int; min 1; max 1000])) (num 10) path v = Return r ->
  status r = valid ->
  exists q,
    value r = VNum q /\ is_integer q = true /\ 1 <= q /\ q <= 1000
    /\ match v with VUndefined => q = inject_Z 10 | _ => v = VNum q end.
Proof.
  unfold default, optional, z_number.
  destruct v; cbn; intros H; injection H as <-; try discriminate.
  - intros _. exists (inject_Z 10). repeat split; discriminate.
  - cbn. change (inject_Z 1) with 1. change (inject_Z 1000) with 1000.
    destruct (is_integer q) eqn:Ei, (Qle_bool 1 q) eqn:E1, (Qle_bool q 1000) eqn:E2;
      cbn; try discriminate.
    intros _. exists q. apply Qle_bool_iff in E1, E2. repeat split; assumption.
Qed.

Lemma in_offset_request_object (k : string) (schema : Schema) :
  In (k, schema)
    [("direction", z_union [z_literal (num 0); z_literal (num 1)]);
     ("date", optional (z_string []));
     ("minute", optional (z_string []));
     ("count", default (optional (z_number [int; min 1; max 1000])) (num 10))] ->
  forall path x r,
    offset_request_object path x = Return r -> status r = valid ->
    exists rk, schema (path ++ [Key k])%list (get k x) = Return rk
               /\ status rk = valid /\ get k (value r) = value rk.
Proof.
  intros Hin path x r H Hv.
  apply z_object_valid in H as (fields & -> & _ & Hf); [|nodup_strings|assumption].
  now apply Hf.
Qed.

(** X7. What a validated candlestick request holds when the arguments have
    an [offset_request]: [forward] is true exactly for direction 1, and the
    direction is 0 or 1; [count] is a whole number from 1 to 1000, the one
    given or else 10; [datetime] is undefined when [date] is absent or
    empty, a [minute] alone being ignored, and otherwise is what
    [parseNaiveDatetime] returns for [date] and [minute]. *)
Theorem offset_request_validated (args v : Value) :
  parse QuoteHistoryCandlesticksSchema args = Return v ->
  get "offset_request" args <> VUndefined ->
  let given := get "offset_request" args in
  let validated := get "offset_request" v in
  get "forward" validated = VBool (is_num 1 (get "direction" given))
  /\ is_num 0 (get "direction" given) || is_num 1 (get "direction" given) = true
  /\ (exists q,
         get "count" validated = VNum q /\ is_integer q = true /\
         1 <= q /\ q <= 1000 /\
         match get "count" given with
         | VUndefined => q = inject_Z 10
         | c => c = VNum q
         end)
  /\ match get "date" given with
     | VUndefined | VStr "" => get "datetime" validated = VUndefined
     | VStr d =>
         exists dt,
           parseNaiveDatetime d (optional_string (get "minute" given)) = Return dt
           /\ get "datetime" validated = VNaiveDatetime dt
     | _ => False
     end.
Proof.
  intros E Hpresent. cbv zeta.
  apply parse_candlesticks_valid in E as [_ Hf].
  destruct (Hf _ _ offset_request_in_shape) as (ro & Hro & Hvo & ->).
  apply transform_valid in Hro as (r0 & H0 & Hv0 & Ht); [|assumption].
  assert (H0' : offset_request_object [Key "offset_request"]
                  (get "offset_request" args) = Return r0).
  { unfold optional in H0.
    destruct (get "offset_request" args); try exact H0. contradiction. }
  clear H0.
  set (given := get "offset_request" args) in *.
  destruct (in_offset_request_object "direction" _ ltac:(now left) _ _ _ H0' Hv0)
    as (rd & Hrd & Hvd & Hgd).
  destruct (in_offset_request_object "date" _ ltac:(right; now left) _ _ _ H0' Hv0)
    as (rt & Hrt & Hvt & Hgt).
  destruct (in_offset_request_object "minute" _ ltac:(do 2 right; now left)
              _ _ _ H0' Hv0) as (rm & Hrm & Hvm & Hgm).
  destruct (in_offset_request_object "count" _ ltac:(do 3 right; now left)
              _ _ _ H0' Hv0) as (rc & Hrc & Hvc & Hgc).
  pose proof (literal_union_matches _ _ _ _ _ Hrd Hvd) as Hdir.
  apply literal_union_value in Hrd; [|assumption].
  apply optional_string_valid in Hrt as [Hrt Hdate]; [|assumption].
  apply optional_string_valid in Hrm as [Hrm _]; [|assumption].
  apply count_valid in Hrc as (q & Hq & Hint & Hlo & Hhi & Hdefault); [|assumption].
  assert (Hobj : exists fields, value r0 = VObj fields).
  { unfold offset_request_object in H0'.
    apply z_object_valid in H0' as (fields & Hval & _); [|nodup_strings|assumption].
    now exists fields. }
  destruct Hobj as [fields Hobj].
  unfold offset_request_transform in Ht.
  rewrite Hobj in Ht, Hgd, Hgt, Hgm, Hgc. cbn [opt_get] in Ht.
  rewrite Hgd, Hgt, Hgm, Hgc, Hrd, Hrt, Hrm, Hq in Ht.
  split; [|split; [exact Hdir|split]].
  - destruct (truthy (get "date" given)); cbn [bind_outcome] in Ht.
    + destruct (on_string _ _) as [dt|e]; [|discriminate].
      cbn [bind_outcome] in Ht. injection Ht as <-. reflexivity.
    + injection Ht as <-. reflexivity.
  - exists q.
    split; [|split; [assumption|split; [assumption|split; [assumption|]]]];
      [|destruct (get "count" given); exact Hdefault].
    destruct (truthy (get "date" given)); cbn [bind_outcome] in Ht.
    + destruct (on_string _ _) as [dt|e]; [|discriminate].
      cbn [bind_outcome] in Ht. injection Ht as <-. reflexivity.
    + injection Ht as <-. reflexivity.
  - destruct Hdate as [Hd | [d Hd]]; rewrite Hd in *; cbn [truthy] in Ht.
    + cbn [bind_outcome] in Ht. injection Ht as <-. reflexivity.
    + destruct d as [|c d]; cbn -[parseNaiveDatetime] in Ht.
      * injection Ht as <-. reflexivity.
      * destruct (parseNaiveDatetime _ _) as [dt|e] eqn:Edt; [|discriminate].
        cbn in Ht. injection Ht as <-. exists dt. now split.
Qed.


Lemma z_string_clean (checks : list StringCheck) : clean (z_string checks).
Proof.
  intros path v r. unfold z_string. destruct v; intros H; injection H as <-;
    try discriminate.
  cbn. destruct (run_string_checks path s checks); [reflexivity | discriminate].
Qed.

Lemma z_number_clean (checks : list NumberCheck) : clean (z_number checks).
Proof.
  intros path v r. unfold z_number. destruct v; intros H; injection H as <-;
    try discriminate.
  cbn. destruct (flat_map _ checks); [reflexivity | discriminate].
Qed.

Lemma union_loop_clean (options : list Schema) (path : Path) (v : Value) :
  forall first_dirty errors r,
    (forall d, first_dirty = Some d -> status d = dirty) ->
    union_loop options path v first_dirty errors = Return r ->
    status r = valid -> issues r = [].
Proof.
  induction options as [|o options IH]; intros first_dirty errors r Hd;
    cbn [union_loop].
  - destruct first_dirty as [d|].
    + intros H Hv. injection H as <-. rewrite (Hd d eq_refl) in Hv. discriminate.
    + intros H. injection H as <-. discriminate.
  - destruct (o path v) as [ro|e]; [|discriminate].
    destruct (status ro) eqn:Es.
    + intros H. injection H as <-. reflexivity.
    + destruct first_dirty as [d|]; apply IH; try assumption.
      intros d' Hd'. injection Hd' as <-. assumption.
    + destruct first_dirty as [d|]; apply IH; assumption.
Qed.

Lemma z_union_clean (options : list Schema) : clean (z_union options).
Proof.
  intros path v r. unfold z_union. apply union_loop_clean. discriminate.
Qed.

Lemma optional_clean (schema : Schema) : clean schema -> clean (optional schema).
Proof.
  intros Hc path v r. unfold optional. destruct v; try apply Hc.
  intros H. injection H as <-. reflexivity.
Qed.

Lemma default_clean (schema : Schema) (d : Value) :
  clean schema -> clean (default schema d).
Proof. intros Hc path v r. unfold default. destruct v; apply Hc. Qed.

Lemma transform_clean (schema : Schema) (f : Value -> Outcome Value) :
  clean schema -> clean (transform schema f).
Proof.
  intros Hc path v r H Hv.
  unfold transform in H. destruct (schema path v) as [r0|e] eqn:E; [|discriminate].
  destruct (status r0) eqn:Es.
  - destruct (f (value r0)); [|discriminate]. injection H as <-.
    cbn. now apply (Hc path v).
  - injection H as <-. congruence.
  - injection H as <-. congruence.
Qed.

Lemma object_pairs_status (path : Path) (data : Value)
  (shape : list (string * Schema)) :
  forall st fields iss r,
    object_pairs shape path data st fields iss = Return r ->
    status r = valid -> st = valid.
Proof.
  induction shape as [|[k schema] shape IH]; intros st fields iss r H Hv;
    cbn [object_pairs] in H.
  - injection H as <-. exact Hv.
  - destruct (schema (path ++ [Key k])%list (get k data)) as [rk|e]; [|discriminate].
    apply IH in H; [|assumption]. now apply merge_status_valid in H.
Qed.

Lemma object_pairs_clean (path : Path) (data : Value) (shape : list (string * Schema)) :
  Forall (fun field => clean (snd field)) shape ->
  forall st fields iss r,
    object_pairs shape path data st fields iss = Return r ->
    status r = valid -> issues r = iss.
Proof.
  induction 1 as [|[k schema] shape Hc _ IH]; intros st fields iss r H Hv;
    cbn [object_pairs] in H.
  - injection H as <-. reflexivity.
  - destruct (schema (path ++ [Key k])%list (get k data)) as [rk|e] eqn:E;
      [|discriminate].
    pose proof (object_pairs_status _ _ _ _ _ _ _ H Hv) as Hm.
    apply merge_status_valid in Hm as [_ Hk].
    rewrite (IH _ _ _ _ H Hv), (Hc _ _ _ E Hk). apply app_nil_r.
Qed.

Lemma z_object_clean (shape : list (string * Schema)) :
  Forall (fun field => clean (snd field)) shape -> clean (z_object shape).
Proof.
  intros Hc path v r H Hv. unfold z_object in H.
  destruct v; try (injection H as <-; discriminate).
  now apply (object_pairs_clean _ _ _ Hc) in H.
Qed.

Lemma candlesticks_fields_clean :
  Forall (fun field => clean (snd field)) QuoteHistoryCandlesticksShape.
Proof.
  repeat apply Forall_cons; try apply Forall_nil; cbn [snd].
  - apply z_string_clean.
  - apply z_union_clean.
  - apply z_union_clean.
  - apply z_union_clean.
  - apply optional_clean, transform_clean, z_object_clean.
    repeat apply Forall_cons; try apply Forall_nil; apply z_string_clean.
  - apply transform_clean, optional_clean, z_object_clean.
    repeat apply Forall_cons; try apply Forall_nil; cbn [snd].
    + apply z_union_clean.
    + apply optional_clean, z_string_clean.
    + apply optional_clean, z_string_clean.
    + apply default_clean, optional_clean, z_number_clean.
Qed.

Lemma handler_validation_fault (tool : Tool.t) (args : Value) (log : Log) (e : Fault) :
  validated tool args = Throw e ->
  CallToolRequest_handler (Tool.value tool) args log
  = (Return (handleErrorResult e), log).
Proof. intros H. rewrite handler_run. unfold staged. now rewrite H. Qed.

(** X8. When the fields of a candlestick request validate one by one, the
    discriminant is 2 and [date_request] is absent, the only issue is the
    one of the refinement, at [query_type]; the handler answers with that
    message and contacts neither the environment nor the backend. *)
Theorem missing_date_request_reported (args : Value) (r : ParseReturn) (log : Log) :
  z_object QuoteHistoryCandlesticksShape [] args = Return r ->
  status r = valid ->
  is_num 2 (get "query_type" args) = true ->
  get "date_request" args = VUndefined ->
  parse QuoteHistoryCandlesticksSchema args
  = Throw (ZodError [mkIssue custom [Key "query_type"] "Invalid input" []])
  /\ CallToolRequest_handler "quote-history-candlesticks" args log
     = (Return (mkResult
                  [mkBlock "text"
                     ("Validation error: Invalid input at " ++ dq ++ "query_type"
                      ++ dq)] (Some true)), log).
Proof.
  intros H Hv Hq Hd.
  assert (E : parse QuoteHistoryCandlesticksSchema args
              = Throw (ZodError [mkIssue custom [Key "query_type"] "Invalid input" []])).
  { unfold parse, safeParse, QuoteHistoryCandlesticksSchema, refine.
    rewrite H, Hv.
    rewrite (z_object_clean _ candlesticks_fields_clean _ _ _ H Hv).
    apply z_object_valid in H as (fields & Hval & _ & Hf);
      [|nodup_strings|assumption].
    destruct (Hf "query_type" _ ltac:(do 3 right; left; reflexivity))
      as (rq & Hrq & Hvq & Hgq).
    destruct (Hf "date_request" _ ltac:(do 4 right; left; reflexivity))
      as (rd & Hrd & Hvd & Hgd).
    apply literal_union_value in Hrq; [|assumption].
    rewrite Hd in Hrd. cbn in Hrd. injection Hrd as <-. cbn [value] in Hgd.
    unfold query_type_refinement.
    rewrite Hval, Hgq, Hrq, Hgd, Hq, (is_num_2_not_1 _ Hq). reflexivity. }
  split; [exact E|].
  change "quote-history-candlesticks"
    with (Tool.value Tool.QuoteHistoryCandlesticks).
  now rewrite (handler_validation_fault Tool.QuoteHistoryCandlesticks args log _ E).
Qed.

Lemma z_string_returns (checks : list StringCheck) (path : Path) (v : Value) :
  exists r, z_string checks path v = Return r.
Proof. unfold z_string, INVALID. destruct v; eexists; reflexivity. Qed.

Lemma literal_union_returns {A : Type} (lit : A -> Value) (members : list A)
  (path : Path) (v : Value) :
  forall first_dirty errors,
    exists r, union_loop (map (fun m => z_literal (lit m)) members) path v
                first_dirty errors = Return r.
Proof.
  induction members as [|m members IH]; intros first_dirty errors;
    cbn [map union_loop].
  - destruct first_dirty; eexists; reflexivity.
  - unfold z_literal at 1. destruct (strict_eq v (lit m)); cbn.
    + eexists; reflexivity.
    + destruct first_dirty; apply IH.
Qed.

(** X9. A date that [parseNaiveDate] refuses is reported by the error that
    [parseNaiveDate] throws, not by a validation error, and whatever else is
    wrong with the arguments: the transform of [date_request] throws while
    the object is being parsed.  The handler answers with the message of
    that error and contacts nothing. *)
Theorem unparsable_date_throws (fields date_request : list (string * Value))
  (start_date end_date : string) (e : Fault) (log : Log) :
  get "date_request" (VObj fields) = VObj date_request ->
  get "start_date" (VObj date_request) = VStr start_date ->
  get "end_date" (VObj date_request) = VStr end_date ->
  parseNaiveDate start_date = Throw e
  \/ (exists d, parseNaiveDate start_date = Return d)
     /\ parseNaiveDate end_date = Throw e ->
  parse QuoteHistoryCandlesticksSchema (VObj fields) = Throw e
  /\ CallToolRequest_handler "quote-history-candlesticks" (VObj fields) log
     = (Return (handleErrorResult e), log).
Proof.
  intros Hd Hs He Hthrow.
  assert (E : parse QuoteHistoryCandlesticksSchema (VObj fields) = Throw e).
  { unfold parse, safeParse, QuoteHistoryCandlesticksSchema, refine, z_object,
      QuoteHistoryCandlesticksShape.
    cbn [object_pairs].
    unfold SymbolSchema at 1.
    destruct (z_string_returns
                [regex re_symbol
                   (Some ("Symbol must be in the format of " ++ dq
                          ++ "ticker.region" ++ dq))]
                ([] ++ [Key "symbol"])%list (get "symbol" (VObj fields)))
      as [r1 ->].
    unfold z_union at 1.
    destruct (literal_union_returns (fun p => num (Period_value p)) Period.listed
                ([] ++ [Key "period"])%list (get "period" (VObj fields)) None [])
      as [r2 ->].
    unfold z_union at 1.
    destruct (literal_union_returns (fun a => num (AdjustType_value a))
                AdjustType.listed ([] ++ [Key "adjust_type"])%list
                (get "adjust_type" (VObj fields)) None [])
      as [r3 ->].
    unfold z_union at 1.
    destruct (literal_union_returns (fun z => num z) [1; 2]%Z
                ([] ++ [Key "query_type"])%list
                (get "query_type" (VObj fields)) None [])
      as [r4 H4].
    cbn [map] in H4. rewrite H4. clear H4.
    rewrite Hd.
    assert (Ht : optional (transform date_request_object date_request_transform)
                   ([] ++ [Key "date_request"])%list (VObj date_request) = Throw e).
    { unfold optional, transform, date_request_object, z_object.
      cbn [object_pairs]. rewrite Hs, He.
      cbn [z_string run_string_checks flat_map status value issues negb
             is_undefined orb merge_status app].
      unfold date_request_transform.
      cbn [get lookup String.eqb Ascii.eqb Bool.eqb on_string bind_outcome].
      destruct Hthrow as [-> | [[d ->] ->]]; reflexivity. }
    rewrite Ht. reflexivity. }
  split; [exact E|].
  change "quote-history-candlesticks"
    with (Tool.value Tool.QuoteHistoryCandlesticks).
  apply handler_validation_fault. exact E.
Qed.


(** ** api.ts *)

(** X10. With [query_type] 2, the handler that has obtained the quote
    context makes one call, [historyCandlesticksByDate], with the symbol,
    period and adjust type of the request and the two dates that
    [parseNaiveDate] reads from [start_date] and [end_date]; the two dates
    are not compared with each other. *)
Theorem candlesticks_by_date (args v : Value) (this this' : LongBridge)
  (log log' : Log) (context : Context) :
  parse QuoteHistoryCandlesticksSchema args = Return v ->
  is_num 2 (get "query_type" v) = true ->
  getQuoteContext this log = (Return context, this', log') ->
  exists s1 s2 d1 d2,
    get "start_date" (get "date_request" args) = VStr s1 /\
    get "end_date" (get "date_request" args) = VStr s2 /\
    parseNaiveDate s1 = Return d1 /\ parseNaiveDate s2 = Return d2 /\
    let date_query :=
      [get "symbol" v; get "period" v; get "adjust_type" v;
       VNaiveDate d1; VNaiveDate d2] in
    snd (quoteHistoryCandlesticks args this log)
    = method_called context "historyCandlesticksByDate" date_query
        (respond world context "historyCandlesticksByDate" date_query log')
      :: log'.
Proof.
  intros E Hq Hctx.
  pose proof E as E'.
  apply parse_candlesticks_valid in E' as [Hc Hf].
  destruct (Hf "date_request" _ ltac:(do 4 right; left; reflexivity))
    as (rd & Hrd & Hvd & Hgd).
  unfold query_type_refinement in Hc.
  rewrite Hq, (is_num_2_not_1 _ Hq) in Hc. cbn [andb] in Hc.
  destruct (truthy (get "date_request" v)) eqn:Ht; [|discriminate Hc].
  assert (Hpresent : get "date_request" args <> VUndefined).
  { intros Hu. rewrite Hu in Hrd. cbn in Hrd. injection Hrd as <-.
    rewrite Hgd in Ht. discriminate Ht. }
  unfold optional in Hrd.
  assert (Hrd' : transform date_request_object date_request_transform
                   [Key "date_request"] (get "date_request" args) = Return rd)
    by (destruct (get "date_request" args); try exact Hrd; contradiction).
  apply date_request_decoded in Hrd'
    as (s1 & s2 & d1 & d2 & H1 & H2 & P1 & P2 & Hval); [|assumption].
  exists s1, s2, d1, d2. repeat split; try assumption. cbv zeta.
  unfold quoteHistoryCandlesticks, try_catch, quoteHistoryCandlesticks_try.
  unfold bind at 1. unfold lift at 1. rewrite E.
  unfold bind at 1. rewrite Hctx. rewrite (is_num_2_not_1 _ Hq), Hgd, Hval.
  unfold bind at 1.
  cbn [call opt_get get lookup String.eqb Ascii.eqb Bool.eqb].
  unfold bind, await, lift, ret.
  destruct (respond world context _ _ log'); reflexivity.
Qed.


Lemma session_new (tool : Tool.t) (log : Log) :
  let kind := session_kind tool in
  let config := mkConfig (length log) in
  let log1 := Config_fromEnv_called (Return config) :: log in
  let context := mkContext kind (S (length log)) config in
  session tool new_LongBridge log
  = match env_fault world log with
    | Some e => (Throw e, new_LongBridge, Config_fromEnv_called (Throw e) :: log)
    | None =>
        match connect_fault world kind config log1 with
        | Some e =>
            (Throw e, mkLongBridge (Some config) None None,
             Context_new_called kind config (Throw e) :: log1)
        | None =>
            (Return context,
             match kind with
             | TradeContext => mkLongBridge (Some config) (Some context) None
             | QuoteContext => mkLongBridge (Some config) None (Some context)
             end,
             Context_new_called kind config (Return context) :: log1)
        end
    end.
Proof.
  cbv zeta.
  destruct tool; cbn [session session_kind];
    unfold getQuoteContext, getQuoteContext_start, getQuoteContext_resume,
      getTradeContext, getTradeContext_start, getTradeContext_resume, config,
      Config_fromEnv, Context_new, bind, read, write, ret, await, lift,
      new_LongBridge;
    cbn;
    (destruct (env_fault world log); [reflexivity|]); cbn;
    (destruct (connect_fault world _ _ _); reflexivity).
Qed.

(** X11. Arguments that do not validate are answered from the validation
    alone: the handler returns the error envelope of the fault and the log
    is as before, so the environment is not read, no context is constructed
    and the backend is not called. *)
Theorem invalid_arguments_contact_nothing (tool : Tool.t) (args : Value)
  (log : Log) (e : Fault) :
  validated tool args = Throw e ->
  CallToolRequest_handler (Tool.value tool) args log
  = (Return (handleErrorResult e), log).
Proof. apply handler_validation_fault. Qed.

(** X12. When the environment has no credentials the handler answers with
    the fault of [Config.fromEnv()] and does not try to connect; when the
    connection is refused it answers with that fault and calls no method. *)
Theorem session_faults_stop_the_handler (tool : Tool.t) (args params : Value)
  (log : Log) (e : Fault) :
  validated tool args = Return params ->
  let config := mkConfig (length log) in
  let loaded := Config_fromEnv_called (Return config) :: log in
  (env_fault world log = Some e ->
   CallToolRequest_handler (Tool.value tool) args log
   = (Return (handleErrorResult e), Config_fromEnv_called (Throw e) :: log))
  /\ (env_fault world log = None ->
      connect_fault world (session_kind tool) config loaded = Some e ->
      CallToolRequest_handler (Tool.value tool) args log
      = (Return (handleErrorResult e),
         Context_new_called (session_kind tool) config (Throw e) :: loaded)).
Proof.
  intros Hv. cbv zeta. rewrite handler_run. unfold staged.
  rewrite Hv. pose proof (session_new tool log) as Hs. cbv zeta in Hs.
  rewrite Hs. split.
  - intros ->. reflexivity.
  - intros -> ->. reflexivity.
Qed.

(** X13. One invocation adds at most three events to the log, in this
    order: one load of the configuration, one construction of a context of
    the kind of the tool, one method call; the call goes to the context
    constructed in this very invocation. *)
Theorem one_call_per_invocation (tool : Tool.t) (args : Value) (log : Log) :
  exists events,
    snd (CallToolRequest_handler (Tool.value tool) args log) = (events ++ log)%list
    /\ (config_loads events <= 1)%nat
    /\ (constructions TradeContext events + constructions QuoteContext events <= 1)%nat
    /\ (contexts_used events = []
        \/ exists context method margs answer,
            events = [method_called context method margs answer;
                      Context_new_called (session_kind tool)
                        (context_config context) (Return context);
                      Config_fromEnv_called (Return (context_config context))]).
Proof.
  rewrite handler_run. unfold staged.
  destruct (validated tool args) as [params|e].
  2: { exists []. cbn. repeat split; try lia. now left. }
  pose proof (session_new tool log) as Hs. cbv zeta in Hs. rewrite Hs. clear Hs.
  destruct (env_fault world log) as [e|].
  { eexists [_]. split; [reflexivity|]. cbn. repeat split; try lia. now left. }
  destruct (connect_fault world _ _ _) as [e|].
  { eexists [_; _]. split; [reflexivity|].
    unfold config_loads, constructions, contexts_used.
    destruct (session_kind tool); cbn; repeat split; try lia; now left. }
  destruct (request tool params) as [method margs].
  match goal with
  | |- context [respond world ?c ?m ?a ?l] =>
      generalize (respond world c m a l); intros outcome
  end.
  eexists [method_called _ method margs outcome; _; _].
  split; [destruct outcome as [answer|e];
          [destruct (passed tool answer)|]; reflexivity|].
  unfold config_loads, constructions, contexts_used.
  destruct (session_kind tool); cbn; repeat split; try lia;
    right; eexists (mkContext _ _ _), _, _, _; reflexivity.
Qed.


Ltac run_session :=
  unfold getQuoteContext, getQuoteContext_start, getQuoteContext_resume,
    getTradeContext, getTradeContext_start, getTradeContext_resume, config,
    Config_fromEnv, Context_new, bind, read, write, ret, await, lift;
  cbn.

(** X14. On one instance a context, once obtained, is memoized: the field
    holds it, the field of the other kind is untouched, and every later call
    returns the same context and records nothing. *)
Theorem context_is_memoized (this this' : LongBridge) (log log' : Log)
  (context : Context) :
  (getQuoteContext this log = (Return context, this', log') ->
   quoteContext this' = Some context /\ tradeContext this' = tradeContext this /\
   forall later, getQuoteContext this' later = (Return context, this', later))
  /\ (getTradeContext this log = (Return context, this', log') ->
      tradeContext this' = Some context /\ quoteContext this' = quoteContext this /\
      forall later, getTradeContext this' later = (Return context, this', later)).
Proof.
  destruct this as [[cfg|] [tc|] [qc|]]; split; run_session;
    repeat match goal with
           | |- context [env_fault world ?l] => destruct (env_fault world l); cbn
           | |- context [connect_fault world ?k ?c ?l] =>
               destruct (connect_fault world k c l); cbn
           end;
    intros H; try discriminate H; injection H as <- <- <-;
    repeat split; reflexivity.
Qed.

(** X15. The configuration is loaded once for both kinds of context: after
    a first quote context on an instance without contexts, obtaining the
    trade context records one construction, with the configuration of the
    quote context, and no second load. *)
Theorem config_is_shared (this this' : LongBridge) (log log' : Log)
  (context : Context) (later : Log) :
  quoteContext this = None ->
  tradeContext this = None ->
  getQuoteContext this log = (Return context, this', log') ->
  exists outcome,
    snd (getTradeContext this' later)
    = Context_new_called TradeContext (context_config context) outcome :: later.
Proof.
  destruct this as [[cfg|] tc qc]; cbn [quoteContext tradeContext];
    intros -> ->; run_session;
    repeat match goal with
           | |- context [env_fault world ?l] => destruct (env_fault world l); cbn
           | |- context [connect_fault world ?k ?c ?l] =>
               destruct (connect_fault world k c l); cbn
           end;
    intros H; try discriminate H; injection H as <- <- <-; run_session;
    destruct (connect_fault world _ _ later); cbn; eexists; reflexivity.
Qed.

(** X16. A failure is not memoized: when [getQuoteContext] throws, the field
    was and stays unset and the trade context is untouched, so the next call
    on the instance tries again, loading or connecting anew. *)
Theorem failure_is_not_memoized (this this' : LongBridge) (log log' : Log)
  (e : Fault) :
  getQuoteContext this log = (Throw e, this', log') ->
  quoteContext this = None /\ quoteContext this' = None
  /\ tradeContext this' = tradeContext this
  /\ forall later,
       (length later < length (snd (getQuoteContext this' later)))%nat.
Proof.
  destruct this as [[cfg|] tc [qc|]]; run_session;
    repeat match goal with
           | |- context [env_fault world ?l] =>
               destruct (env_fault world l) eqn:?; cbn
           | |- context [connect_fault world ?k ?c ?l] =>
               destruct (connect_fault world k c l) eqn:?; cbn
           end;
    intros H; try discriminate H; injection H as <- <- <-;
    (split; [reflexivity|split; [reflexivity|split; [reflexivity|]]]);
    intros later; run_session;
    repeat match goal with
           | |- context [env_fault world ?l] => destruct (env_fault world l); cbn
           | |- context [connect_fault world ?k ?c ?l] =>
               destruct (connect_fault world k c l); cbn
           end; lia.
Qed.


Lemma parse_valid (schema : Schema) (data v : Value) :
  parse schema data = Return v ->
  exists r, schema [] data = Return r /\ status r = valid /\ value r = v.
Proof.
  unfold parse, safeParse. destruct (schema [] data) as [r|e]; [|discriminate].
  destruct (status r) eqn:Es.
  - intros H. injection H as <-. now exists r.
  - destruct (issues r); discriminate.
  - destruct (issues r); discriminate.
Qed.

Lemma currency_valid (path : Path) (v : Value) (r : ParseReturn) :
  optional (z_union [z_literal (VStr "HKD"); z_literal (VStr "USD");
                     z_literal (VStr "CNH")]) path v = Return r ->
  status r = valid ->
  value r = v /\
  (v = VUndefined \/ v = VStr "HKD" \/ v = VStr "USD" \/ v = VStr "CNH").
Proof.
  unfold optional, z_union, union_loop, z_literal.
  destruct v; cbn;
    try (intros H Hv; injection H as <-; discriminate Hv).
  - intros H _. injection H as <-. split; [reflexivity | now left].
  - destruct (String.eqb_spec s "HKD") as [->|_]; cbn.
    { intros H _. injection H as <-. split; [reflexivity|]. right. now left. }
    destruct (String.eqb_spec s "USD") as [->|_]; cbn.
    { intros H _. injection H as <-. split; [reflexivity|]. do 2 right. now left. }
    destruct (String.eqb_spec s "CNH") as [->|_]; cbn.
    { intros H _. injection H as <-. split; [reflexivity|]. now do 3 right. }
    intros H Hv. injection H as <-. discriminate Hv.
Qed.


(** X17. For [trade-account-balance] only the currency reaches the backend:
    a successful call is a call of [accountBalance] with the currency of the
    arguments, which is absent or one of HKD, USD and CNH; any other key of
    the arguments is dropped by the validation. *)
Theorem account_balance_currency (args : Value) (log log' : Log)
  (result : ServerResult) :
  CallToolRequest_handler "trade-account-balance" args log = (Return result, log') ->
  isError result = None ->
  let currency := get "currency" args in
  (currency = VUndefined \/ currency = VStr "HKD" \/ currency = VStr "USD"
   \/ currency = VStr "CNH")
  /\ (exists context outcome rest,
         log' = method_called context "accountBalance" [currency] outcome :: rest)
  /\ (exists params,
         parse TradeAccountBalanceSchema args = Return params /\
         forall k, k <> "currency" -> get k params = VUndefined).
Proof.
  change "trade-account-balance" with (Tool.value Tool.TradeAccountBalance).
  rewrite handler_run.
  destruct (staged Tool.TradeAccountBalance args new_LongBridge log)
    as [[[r|e] this'] log0] eqn:E;
    intros H; injection H as <- <-; [|discriminate].
  intros _. cbv zeta.
  apply staged_success in E
    as (params & context & log1 & answer & items & Hv & _ & _ & -> & _ & _).
  cbn [validated request fst snd] in *.
  pose proof Hv as Hv'.
  apply parse_valid in Hv' as (r0 & H0 & Hs0 & <-).
  apply z_object_valid in H0 as (fields & Hval & Hnone & Hf);
    [|nodup_strings|assumption].
  destruct (Hf "currency" _ ltac:(now left)) as (rc & Hrc & Hvc & Hgc).
  apply currency_valid in Hrc as [Hrc Hcases]; [|assumption].
  rewrite Hval, Hgc, Hrc.
  split; [exact Hcases|]. split.
  - do 3 eexists. reflexivity.
  - exists (value r0). split; [exact Hv|]. intros k Hk. rewrite Hval.
    cbn [get]. rewrite Hnone; [reflexivity|].
    cbn. intros [Heq|[]]. now apply Hk.
Qed.

(** X18. [trade-stock-positions] puts no bound on its list of symbols: any
    number of well-formed symbols validates and is handed on unchanged, and
    so do arguments without the list. *)
Theorem positions_symbols_unbounded (symbols : list string) :
  Forall (fun s => re_symbol s = true) symbols ->
  parse TradeStockPositionsSchema (VObj [("symbol", VArr (map VStr symbols))])
  = Return (VObj [("symbol", VArr (map VStr symbols))])
  /\ parse TradeStockPositionsSchema (VObj []) = Return (VObj []).
Proof.
  intros H. split; [|reflexivity].
  unfold parse, safeParse, TradeStockPositionsSchema, z_object.
  cbn [object_pairs].
  change (get "symbol" (VObj [("symbol", VArr (map VStr symbols))]))
    with (VArr (map VStr symbols)).
  change (has_key "symbol" (VObj [("symbol", VArr (map VStr symbols))]))
    with true.
  unfold optional, z_array. rewrite (array_of_symbols _ symbols H). reflexivity.
Qed.

Lemma assoc_In {A : Type} (k : string) (table : list (string * A)) (a : A) :
  assoc k table = Some a -> In k (map fst table).
Proof.
  induction table as [|[k' a'] table IH]; cbn [assoc map fst]; [discriminate|].
  destruct (String.eqb_spec k k') as [->|_]; [now left|].
  intros H. right. now apply IH.
Qed.

(** ** index.ts *)

(** X19. The catalogue and the dispatch agree: the catalogue lists fourteen
    tools under different names with the descriptions of [TOOLS_CONFIG],
    and a name is in the catalogue exactly when the call handler finds a
    method of [LongBridge] for it and answers with what that method returns
    on a new instance. *)
Theorem catalogue_matches_dispatch :
  length ListToolsRequest_handler = 14%nat
  /\ NoDup (map tool_name ListToolsRequest_handler)
  /\ map (fun entry => (tool_name entry, tool_description entry))
       ListToolsRequest_handler
     = map (fun '(name, config) => (name, description config)) TOOLS_CONFIG
  /\ forall name,
       In name (map tool_name ListToolsRequest_handler) <->
       exists config method,
         assoc name TOOLS_CONFIG = Some config /\
         LongBridge_method (funcName config) = Some method /\
         forall args log,
           CallToolRequest_handler name args log
           = (fst (fst (method args new_LongBridge log)),
              snd (method args new_LongBridge log)).
Proof.
  assert (Hnames : map tool_name ListToolsRequest_handler = map fst TOOLS_CONFIG).
  { unfold ListToolsRequest_handler. rewrite map_map.
    apply map_ext. intros [name config]. reflexivity. }
  split; [reflexivity|]. split; [rewrite Hnames; cbn; nodup_strings|].
  split.
  { unfold ListToolsRequest_handler. rewrite map_map.
    apply map_ext. intros [name config]. reflexivity. }
  intros name. rewrite Hnames. split.
  - intros H. apply registry_names in H as [tool ->].
    destruct tool; do 2 eexists;
      (split; [reflexivity|]; split; [reflexivity|]);
      intros args log; unfold CallToolRequest_handler; cbn;
      match goal with
      | |- context [?m args new_LongBridge log] =>
          destruct (m args new_LongBridge log) as [[r this'] log']
      end; reflexivity.
  - intros (config & method & H & _). now apply assoc_In in H.
Qed.


End Longbridge.

(** * The theorems at the sample parameters *)

#[local] Existing Instance sample_sdk.

Notation "'sample_schema'" :=
  (QuoteHistoryCandlesticksSchema sample_Period_value sample_AdjustType_value).

Notation "'sample_handler'" :=
  (CallToolRequest_handler sample_Period_value sample_AdjustType_value
     sample_CalcIndex_value sample_datetimeRegex sample_world sample_stringify).

Notation "'sample_config'" :=
  (TOOLS_CONFIG sample_Period_value sample_AdjustType_value
     sample_CalcIndex_value sample_datetimeRegex).

Lemma parseNaiveDate_correct_witness :
  parseNaiveDate "20231016" = Return (mkNaiveDate 2023 10 16)
  /\ parseNaiveDate "2023101" = Throw dateFormatError
  /\ parseNaiveDate "20231341" = Throw dateValueError
  /\ parseNaiveDate "20230431" = Throw (JsError "day must be in the range 1..=30").
Proof.
  destruct parseNaiveDate_correct as (H1 & H2 & H3 & H4 & _).
  split; [|split; [|split]].
  - apply H1. exists [2; 0; 2; 3]%nat, [1; 0]%nat, [1; 6]%nat.
    repeat split; try reflexivity; try (cbn; lia);
      repeat (apply Forall_cons; [lia|]); apply Forall_nil.
  - apply H2. intros (ds & Hl & _ & E). list_of_length. discriminate E.
  - apply (H3 [2; 0; 2; 3]%nat [1; 3]%nat [4; 1]%nat); try reflexivity.
    + repeat (apply Forall_cons; [lia|]); apply Forall_nil.
    + cbn. lia.
  - apply (H4 [2; 0; 2; 3]%nat [0; 4]%nat [3; 1]%nat); try reflexivity.
    + repeat (apply Forall_cons; [lia|]); apply Forall_nil.
    + cbn. lia.
    + cbn. lia.
Defined.

(** C5, as stated, fails: 20230230 has eight digits, month 2 and day 30,
    and is not a date of the calendar; whatever the text of the SDK's
    error, [parseNaiveDate] does not return a date for it. *)
Lemma calendar_date_required :
  ~ (exists sdk : Longport,
        forall ys ms ds : list nat,
          length ys = 4%nat -> length ms = 2%nat -> length ds = 2%nat ->
          are_digits (ys ++ ms ++ ds)%list ->
          (1 <= decimal ms <= 12)%Z -> (1 <= decimal ds <= 31)%Z ->
          @parseNaiveDate sdk (digits_string (ys ++ ms ++ ds)%list)
          = Return (mkNaiveDate (decimal ys) (decimal ms) (decimal ds))).
Proof.
  intros [sdk H].
  assert (E : @parseNaiveDate sdk "20230230" = Return (mkNaiveDate 2023 2 30)).
  { apply (H [2; 0; 2; 3]%nat [0; 2]%nat [3; 0]%nat);
      try reflexivity; try (cbn; lia).
    repeat (apply Forall_cons; [lia|]); apply Forall_nil. }
  discriminate E.
Qed.

Lemma parseTime_correct_witness :
  parseTime "0935" = Return (mkTime 9 35 0)
  /\ second (mkTime 9 35 0) = 0%Z
  /\ parseTime "99999" = Throw timeFormatError
  /\ parseTime "2460" = Throw timeValueError.
Proof.
  destruct parseTime_correct as (H1 & H2 & H3 & H4 & _).
  split; [|split; [|split]].
  - apply H1. exists [0; 9]%nat, [3; 5]%nat, [].
    repeat split; try reflexivity; try (cbn; lia); try (now left);
      repeat (apply Forall_cons; [lia|]); apply Forall_nil.
  - apply (H2 "0935"); reflexivity.
  - apply H3. intros (ds & [Hl|Hl] & _ & E); list_of_length; discriminate E.
  - apply (H4 [2; 4]%nat [6; 0]%nat []); try reflexivity.
    + now left.
    + repeat (apply Forall_cons; [lia|]); apply Forall_nil.
    + cbn. lia.
Defined.

Lemma date_request_required_witness :
  (exists e,
      parse sample_schema
        (VObj [("symbol", VStr "AAPL.US"); ("period", num 14);
               ("adjust_type", num 0); ("query_type", num 2);
               ("offset_request", VObj [("direction", num 1)])])
      = Throw e)
  /\ (exists s1 s2 d1 d2,
         VStr "20230101" = VStr s1 /\ VStr "20230228" = VStr s2 /\
         parseNaiveDate s1 = Return d1 /\ parseNaiveDate s2 = Return d2 /\
         VObj [("start", VNaiveDate (mkNaiveDate 2023 1 1));
               ("end", VNaiveDate (mkNaiveDate 2023 2 28))]
         = VObj [("start", VNaiveDate d1); ("end", VNaiveDate d2)]).
Proof.
  destruct (date_request_required sample_Period_value sample_AdjustType_value)
    as [H1 H2].
  split.
  - apply H1; reflexivity.
  - refine (H2 (VObj [("symbol", VStr "AAPL.US"); ("period", num 14);
                      ("adjust_type", num 0); ("query_type", num 2);
                      ("date_request",
                       VObj [("start_date", VStr "20230101");
                             ("end_date", VStr "20230228")])])
              (VObj [("symbol", VStr "AAPL.US"); ("period", num 14);
                     ("adjust_type", num 0); ("query_type", num 2);
                     ("date_request",
                      VObj [("start", VNaiveDate (mkNaiveDate 2023 1 1));
                            ("end", VNaiveDate (mkNaiveDate 2023 2 28))]);
                     ("offset_request",
                      VObj [("forward", VBool false); ("datetime", VUndefined);
                            ("count", VUndefined)])]) _ _).
    + reflexivity.
    + discriminate.
Defined.

Lemma offset_request_always_defined_witness :
  let args := VObj [("symbol", VStr "AAPL.US"); ("period", num 14);
                    ("adjust_type", num 0); ("query_type", num 1)] in
  let context := mkContext QuoteContext 1 (mkConfig 0) in
  let offset_query :=
    [VStr "AAPL.US"; num 14; num 0; VBool false; VUndefined; num 10] in
  snd (quoteHistoryCandlesticks sample_Period_value sample_AdjustType_value
         sample_world sample_stringify args new_LongBridge [])
  = [method_called context "historyCandlesticksByOffset" offset_query
       (Return (VArr sample_items));
     Context_new_called QuoteContext (mkConfig 0) (Return context);
     Config_fromEnv_called (Return (mkConfig 0))].
Proof.
  cbv zeta.
  destruct (offset_request_always_defined sample_Period_value
              sample_AdjustType_value sample_world sample_stringify)
    as (_ & _ & H).
  refine (H (VObj [("symbol", VStr "AAPL.US"); ("period", num 14);
                   ("adjust_type", num 0); ("query_type", num 1)])
            (VObj [("symbol", VStr "AAPL.US"); ("period", num 14);
                   ("adjust_type", num 0); ("query_type", num 1);
                   ("offset_request",
                    VObj [("forward", VBool false); ("datetime", VUndefined);
                          ("count", VUndefined)])])
            new_LongBridge [] (mkContext QuoteContext 1 (mkConfig 0))
            (mkLongBridge (Some (mkConfig 0)) None
               (Some (mkContext QuoteContext 1 (mkConfig 0))))
            _ _ _ _ _); reflexivity.
Defined.

Lemma unknown_tool_is_reported_witness :
  sample_handler "not-a-tool" VUndefined []
  = (Return
       (mkResult
          [mkBlock "text"
             ("Validation error: Invalid enum value. Expected "
              ++ joinValues (map Tool.value Tool.members)
              ++ ", received 'not-a-tool'")]
          (Some true)), []).
Proof.
  refine (proj1 (unknown_tool_is_reported sample_Period_value
                   sample_AdjustType_value sample_CalcIndex_value
                   sample_datetimeRegex sample_world sample_stringify
                   "not-a-tool" VUndefined [] _)).
  cbn. intros H.
  repeat (destruct H as [H|H]; [discriminate H|]). exact H.
Defined.

Lemma faults_are_contained_witness :
  (exists result log',
      sample_handler "trade-account-balance" (VObj []) [] = (Return result, log')
      /\ (isError result = None \/
          isError result = Some true /\
          exists message, content result = [mkBlock "text" message]))
  /\ (exists message log',
         CallToolRequest_handler sample_Period_value sample_AdjustType_value
           sample_CalcIndex_value sample_datetimeRegex failing_world
           sample_stringify "quote-depth" (VObj [("symbol", VStr "AAPL.US")]) []
         = (Return (mkResult [mkBlock "text" message] (Some true)), log')
         /\ handleErrorResult sample_stringify (JsError "backend failure")
            = mkResult [mkBlock "text" message] (Some true)).
Proof.
  split.
  - apply (proj1 (faults_are_contained sample_Period_value sample_AdjustType_value
                    sample_CalcIndex_value sample_datetimeRegex sample_world
                    sample_stringify)).
    cbn. tauto.
  - apply (proj2 (faults_are_contained sample_Period_value sample_AdjustType_value
                    sample_CalcIndex_value sample_datetimeRegex failing_world
                    sample_stringify) Tool.QuoteDepth).
    eapply during_backend_call; reflexivity.
Defined.

Lemma one_block_per_passed_item_witness :
  exists result log',
    sample_handler "trade-account-balance" (VObj []) [] = (Return result, log')
    /\ isError result = None
    /\ one_block_per_element sample_stringify sample_items result.
Proof.
  edestruct (one_block_per_passed_item sample_Period_value sample_AdjustType_value
               sample_CalcIndex_value sample_datetimeRegex sample_world
               sample_stringify Tool.TradeAccountBalance (VObj []) [])
    as (context & method & margs & answer & rest & Hlog & H);
    [reflexivity | reflexivity |].
  injection Hlog as _ _ _ Ha _. subst answer.
  do 2 eexists. split; [reflexivity|]. split; [reflexivity|].
  now apply H.
Defined.

(** C8, as stated, fails: the answer of [calcIndexes] is a collection of
    three elements and the success envelope holds one block. *)
Lemma collection_in_one_block :
  ~ (forall tool args log result log' context method margs items rest,
        sample_handler (Tool.value tool) args log = (Return result, log') ->
        isError result = None ->
        log' = method_called context method margs (Return (VArr items)) :: rest ->
        one_block_per_element sample_stringify items result).
Proof.
  intros H.
  edestruct (H Tool.QuoteCalcIndex
               (VObj [("symbols", VArr [VStr "AAPL.US"]);
                      ("calc_index", VArr [num 0])]) [])
    as [Hlen _]; [reflexivity | reflexivity | reflexivity |].
  discriminate Hlen.
Qed.

Lemma session_constructed_per_request_witness :
  let request := ("quote-depth", VObj [("symbol", VStr "AAPL.US")]) in
  let log' := snd (serve sample_Period_value sample_AdjustType_value
                     sample_CalcIndex_value sample_datetimeRegex sample_world
                     sample_stringify [request; request] []) in
  config_loads log' = 2%nat /\
  constructions QuoteContext log' = 2%nat /\
  exists first second,
    contexts_used log' = [first; second] /\ first <> second.
Proof.
  apply (session_constructed_per_request sample_Period_value
           sample_AdjustType_value sample_CalcIndex_value sample_datetimeRegex
           sample_world sample_stringify []).
  split; intros; reflexivity.
Defined.

Lemma concurrent_first_calls_construct_twice_witness :
  (exists first second this' log',
      two_getQuoteContext sample_world new_LongBridge []
      = (Return (first, second), this', log') /\
      first <> second /\
      constructions QuoteContext log' = 2%nat)
  /\ (exists first second log',
         two_requests_getQuoteContext sample_world []
         = (Return first, Return second, log') /\
         first <> second /\
         constructions QuoteContext log' = 2%nat).
Proof.
  apply (concurrent_first_calls_construct_twice sample_world new_LongBridge []).
  - split; intros; reflexivity.
  - reflexivity.
Defined.

(** * The further properties at the sample parameters *)

Lemma parseNaiveDate_injective_witness :
  "20231016" = "20231016" /\ (0 <= 2023 <= 9999)%Z.
Proof.
  apply (parseNaiveDate_injective "20231016" "20231016" (mkNaiveDate 2023 10 16));
    reflexivity.
Defined.

Lemma parseTime_seconds_default_witness :
  mkTime 9 35 0 = mkTime 9 35 0.
Proof. apply (parseTime_seconds_default "0935"). reflexivity. Defined.

Lemma parseNaiveDatetime_composes_witness :
  parseNaiveDatetime "20231301" (Some "9999") = Throw dateValueError
  /\ parseNaiveDatetime "20231016" (Some "0935")
     = Return (mkNaiveDatetime (mkNaiveDate 2023 10 16) (mkTime 9 35 0)).
Proof.
  destruct (parseNaiveDatetime_composes "20231301") as (_ & _ & H1 & _).
  destruct (parseNaiveDatetime_composes "20231016") as (_ & _ & _ & H2).
  split.
  - apply H1. reflexivity.
  - apply (H2 "0935" (mkNaiveDate 2023 10 16)); [reflexivity | discriminate].
Defined.

Lemma SymbolSchema_accepts_witness :
  SymbolSchema [] (VStr "AAPL.US") = OK (VStr "AAPL.US")
  /\ exists issue,
      SymbolSchema [] (VStr "aapl.us")
      = Return (mkParse dirty (VStr "aapl.us") [issue]).
Proof.
  split.
  - apply (proj1 (SymbolSchema_accepts [] (VStr "AAPL.US"))).
    exists "AAPL", "US". repeat split; try reflexivity; discriminate.
  - apply (proj2 (SymbolSchema_accepts [] (VStr "aapl.us"))). discriminate.
Defined.

Lemma symbol_list_bound_witness :
  parse QuoteStaticInfoSchema (VObj [("symbol", VArr [VStr "AAPL.US"; VStr "700.HK"])])
  = Return (VObj [("symbol", VArr [VStr "AAPL.US"; VStr "700.HK"])])
  /\ parse QuoteRealtimeInfoSchema
       (VObj [("symbol", VArr [VStr "AAPL.US"; VStr "700.HK"])])
     = Return (VObj [("symbol", VArr [VStr "AAPL.US"; VStr "700.HK"])]).
Proof.
  apply (symbol_list_bound ["AAPL.US"; "700.HK"]).
  repeat (apply Forall_cons; [reflexivity|]). apply Forall_nil.
Defined.

Lemma trades_count_bound_witness :
  parse QuoteTradesSchema (VObj [("symbol", VStr "AAPL.US"); ("count", VNum 50)])
  = Return (VObj [("symbol", VStr "AAPL.US"); ("count", VNum 50)])
  /\ parse QuoteTradesSchema (VObj [("symbol", VStr "AAPL.US")])
     = Throw (ZodError [mkIssue invalid_type [Key "count"] "Required" []]).
Proof.
  destruct (trades_count_bound "AAPL.US" 50 eq_refl) as (H1 & _ & H2).
  split; [|exact H2].
  apply H1. split; [exists 50%Z; reflexivity|]. split; discriminate.
Defined.

Lemma offset_request_validated_witness :
  let validated :=
    VObj [("forward", VBool true); ("datetime", VUndefined); ("count", num 10)] in
  get "forward" validated = VBool true
  /\ get "datetime" validated = VUndefined.
Proof.
  cbv zeta.
  destruct (offset_request_validated sample_Period_value sample_AdjustType_value
              (VObj [("symbol", VStr "AAPL.US"); ("period", num 14);
                     ("adjust_type", num 0); ("query_type", num 1);
                     ("offset_request",
                      VObj [("direction", num 1); ("minute", VStr "xx")])])
              (VObj [("symbol", VStr "AAPL.US"); ("period", num 14);
                     ("adjust_type", num 0); ("query_type", num 1);
                     ("offset_request",
                      VObj [("forward", VBool true); ("datetime", VUndefined);
                            ("count", num 10)])])
              eq_refl ltac:(discriminate)) as (H1 & _ & _ & H4).
  split; [exact H1 | exact H4].
Defined.

Lemma missing_date_request_reported_witness :
  sample_handler "quote-history-candlesticks"
    (VObj [("symbol", VStr "AAPL.US"); ("period", num 14); ("adjust_type", num 0);
           ("query_type", num 2)]) []
  = (Return (mkResult
               [mkBlock "text"
                  ("Validation error: Invalid input at " ++ dq ++ "query_type" ++ dq)]
               (Some true)), []).
Proof.
  refine (proj2 (missing_date_request_reported sample_Period_value
                   sample_AdjustType_value sample_CalcIndex_value
                   sample_datetimeRegex sample_world sample_stringify
                   (VObj [("symbol", VStr "AAPL.US"); ("period", num 14);
                          ("adjust_type", num 0); ("query_type", num 2)])
                   (mkParse valid
                      (VObj [("symbol", VStr "AAPL.US"); ("period", num 14);
                             ("adjust_type", num 0); ("query_type", num 2);
                             ("offset_request",
                              VObj [("forward", VBool false);
                                    ("datetime", VUndefined);
                                    ("count", VUndefined)])]) [])
                   [] _ _ _ _)); reflexivity.
Defined.

Lemma unparsable_date_throws_witness :
  sample_handler "quote-history-candlesticks"
    (VObj [("symbol", VStr "aapl"); ("query_type", num 2);
           ("date_request",
            VObj [("start_date", VStr "2023-10-16"); ("end_date", VStr "20231017")])])
    []
  = (Return (handleErrorResult sample_stringify dateFormatError), []).
Proof.
  refine (proj2 (unparsable_date_throws sample_Period_value
                   sample_AdjustType_value sample_CalcIndex_value
                   sample_datetimeRegex sample_world sample_stringify
                   [("symbol", VStr "aapl"); ("query_type", num 2);
                    ("date_request",
                     VObj [("start_date", VStr "2023-10-16");
                           ("end_date", VStr "20231017")])]
                   [("start_date", VStr "2023-10-16"); ("end_date", VStr "20231017")]
                   "2023-10-16" "20231017" dateFormatError [] _ _ _ _));
    try reflexivity.
  left. reflexivity.
Defined.

Lemma candlesticks_by_date_witness :
  snd (quoteHistoryCandlesticks sample_Period_value sample_AdjustType_value
         sample_world sample_stringify
         (VObj [("symbol", VStr "AAPL.US"); ("period", num 14);
                ("adjust_type", num 0); ("query_type", num 2);
                ("date_request",
                 VObj [("start_date", VStr "20231017");
                       ("end_date", VStr "20231016")])])
         new_LongBridge [])
  = [method_called (mkContext QuoteContext 1 (mkConfig 0))
       "historyCandlesticksByDate"
       [VStr "AAPL.US"; num 14; num 0;
        VNaiveDate (mkNaiveDate 2023 10 17); VNaiveDate (mkNaiveDate 2023 10 16)]
       (Return (VArr sample_items));
     Context_new_called QuoteContext (mkConfig 0)
       (Return (mkContext QuoteContext 1 (mkConfig 0)));
     Config_fromEnv_called (Return (mkConfig 0))].
Proof.
  destruct (candlesticks_by_date sample_Period_value sample_AdjustType_value
              sample_world sample_stringify
              (VObj [("symbol", VStr "AAPL.US"); ("period", num 14);
                     ("adjust_type", num 0); ("query_type", num 2);
                     ("date_request",
                      VObj [("start_date", VStr "20231017");
                            ("end_date", VStr "20231016")])])
              (VObj [("symbol", VStr "AAPL.US"); ("period", num 14);
                     ("adjust_type", num 0); ("query_type", num 2);
                     ("date_request",
                      VObj [("start", VNaiveDate (mkNaiveDate 2023 10 17));
                            ("end", VNaiveDate (mkNaiveDate 2023 10 16))]);
                     ("offset_request",
                      VObj [("forward", VBool false); ("datetime", VUndefined);
                            ("count", VUndefined)])])
              new_LongBridge
              (mkLongBridge (Some (mkConfig 0)) None
                 (Some (mkContext QuoteContext 1 (mkConfig 0))))
              []
              [Context_new_called QuoteContext (mkConfig 0)
                 (Return (mkContext QuoteContext 1 (mkConfig 0)));
               Config_fromEnv_called (Return (mkConfig 0))]
              (mkContext QuoteContext 1 (mkConfig 0)) eq_refl eq_refl eq_refl)
    as (s1 & s2 & d1 & d2 & E1 & E2 & P1 & P2 & H).
  injection E1 as <-. injection E2 as <-.
  injection P1 as <-. injection P2 as <-.
  exact H.
Defined.

Lemma invalid_arguments_contact_nothing_witness :
  sample_handler "quote-trades"
    (VObj [("symbol", VStr "AAPL.US"); ("count", num 0)]) []
  = (Return
       (handleErrorResult sample_stringify
          (ZodError [mkIssue too_small [Key "count"]
                       "Number must be greater than or equal to 1" []])), []).
Proof.
  apply (invalid_arguments_contact_nothing sample_Period_value
           sample_AdjustType_value sample_CalcIndex_value sample_datetimeRegex
           sample_world sample_stringify Tool.QuoteTrades).
  reflexivity.
Defined.

Lemma session_faults_stop_the_handler_witness :
  CallToolRequest_handler sample_Period_value sample_AdjustType_value
    sample_CalcIndex_value sample_datetimeRegex bare_world sample_stringify
    "quote-watch-list" VUndefined []
  = (Return (handleErrorResult sample_stringify (JsError "missing credentials")),
     [Config_fromEnv_called (Throw (JsError "missing credentials"))])
  /\ CallToolRequest_handler sample_Period_value sample_AdjustType_value
       sample_CalcIndex_value sample_datetimeRegex offline_world sample_stringify
       "quote-watch-list" VUndefined []
     = (Return (handleErrorResult sample_stringify (JsError "connection refused")),
        [Context_new_called QuoteContext (mkConfig 0)
           (Throw (JsError "connection refused"));
         Config_fromEnv_called (Return (mkConfig 0))]).
Proof.
  split.
  - apply (proj1 (session_faults_stop_the_handler sample_Period_value
                    sample_AdjustType_value sample_CalcIndex_value
                    sample_datetimeRegex bare_world sample_stringify
                    Tool.QuoteWatchList VUndefined VUndefined []
                    (JsError "missing credentials") eq_refl)).
    reflexivity.
  - apply (proj2 (session_faults_stop_the_handler sample_Period_value
                    sample_AdjustType_value sample_CalcIndex_value
                    sample_datetimeRegex offline_world sample_stringify
                    Tool.QuoteWatchList VUndefined VUndefined []
                    (JsError "connection refused") eq_refl)); reflexivity.
Defined.

Lemma context_is_memoized_witness :
  getQuoteContext sample_world
    (mkLongBridge (Some (mkConfig 0)) None
       (Some (mkContext QuoteContext 1 (mkConfig 0)))) []
  = (Return (mkContext QuoteContext 1 (mkConfig 0)),
     mkLongBridge (Some (mkConfig 0)) None
       (Some (mkContext QuoteContext 1 (mkConfig 0))), []).
Proof.
  destruct (proj1 (context_is_memoized sample_world new_LongBridge
                     (mkLongBridge (Some (mkConfig 0)) None
                        (Some (mkContext QuoteContext 1 (mkConfig 0))))
                     []
                     [Context_new_called QuoteContext (mkConfig 0)
                        (Return (mkContext QuoteContext 1 (mkConfig 0)));
                      Config_fromEnv_called (Return (mkConfig 0))]
                     (mkContext QuoteContext 1 (mkConfig 0))) eq_refl)
    as (_ & _ & H).
  exact (H []).
Defined.

Lemma config_is_shared_witness :
  exists outcome,
    snd (getTradeContext sample_world
           (mkLongBridge (Some (mkConfig 0)) None
              (Some (mkContext QuoteContext 1 (mkConfig 0)))) [])
    = [Context_new_called TradeContext (mkConfig 0) outcome].
Proof.
  apply (config_is_shared sample_world new_LongBridge
           (mkLongBridge (Some (mkConfig 0)) None
              (Some (mkContext QuoteContext 1 (mkConfig 0))))
           []
           [Context_new_called QuoteContext (mkConfig 0)
              (Return (mkContext QuoteContext 1 (mkConfig 0)));
            Config_fromEnv_called (Return (mkConfig 0))]
           (mkContext QuoteContext 1 (mkConfig 0)) []); reflexivity.
Defined.

Lemma failure_is_not_memoized_witness :
  quoteContext (mkLongBridge (Some (mkConfig 0)) None None) = None
  /\ (0 < length (snd (getQuoteContext offline_world
                         (mkLongBridge (Some (mkConfig 0)) None None) [])))%nat.
Proof.
  destruct (failure_is_not_memoized offline_world new_LongBridge
              (mkLongBridge (Some (mkConfig 0)) None None) []
              [Context_new_called QuoteContext (mkConfig 0)
                 (Throw (JsError "connection refused"));
               Config_fromEnv_called (Return (mkConfig 0))]
              (JsError "connection refused") eq_refl) as (_ & H1 & _ & H2).
  split; [exact H1 | exact (H2 [])].
Defined.

Lemma account_balance_currency_witness :
  exists context outcome rest,
    snd (sample_handler "trade-account-balance"
           (VObj [("currency", VStr "USD"); ("verbose", VBool true)]) [])
    = method_called context "accountBalance" [VStr "USD"] outcome :: rest.
Proof.
  destruct (account_balance_currency sample_Period_value sample_AdjustType_value
              sample_CalcIndex_value sample_datetimeRegex sample_world
              sample_stringify
              (VObj [("currency", VStr "USD"); ("verbose", VBool true)]) []
              (snd (sample_handler "trade-account-balance"
                      (VObj [("currency", VStr "USD"); ("verbose", VBool true)]) []))
              (handleSuccessResult sample_stringify sample_items)
              eq_refl eq_refl) as (_ & H & _).
  exact H.
Defined.

Lemma positions_symbols_unbounded_witness :
  parse TradeStockPositionsSchema (VObj [("symbol", VArr [VStr "AAPL.US"])])
  = Return (VObj [("symbol", VArr [VStr "AAPL.US"])]).
Proof.
  apply (positions_symbols_unbounded ["AAPL.US"]).
  apply Forall_cons; [reflexivity | apply Forall_nil].
Defined.
